(** * AnimationKarstEdumed: the flood series and its timeline driver

    A shallow embedding of [constants.ts] (the generator of
    [SIMULATION_DATA]), of the transport callbacks of [App.tsx]
    ([animate], [handleSeek], [handleSpeedChange], [togglePlay],
    [handleReset]) and of the sample lookup shared by the views
    ([data.find(d => d.time >= currentTime) || data[data.length - 1]]).

    Numbers.  A JavaScript number that carries a time (sample times,
    [currentTime], the frame timestamps, the speed multiplier) is modelled
    as a rational [Q]: every operation the code applies to them is a field
    operation, a comparison, [Math.floor] or [%], all of which are
    computable on [Q].  Water levels go through [Math.exp] and are
    modelled as real numbers [R]; a sample time enters them through
    [Q2R].  Rounding of binary64 is not modelled, except for the frame
    callback, which is also given with the rounding of each operation
    written out ([animateFl]). *)

From Stdlib Require Import ZArith QArith Qround Qminmax.
From Stdlib Require Import Reals Lra.
From Stdlib Require Import List Bool Ascii String DecimalString.
From Stdlib Require Import Lia Sorted.
From Stdlib Require Lqa.
Import ListNotations.

(** ** JavaScript arithmetic used by the generator *)

Module JS.

(** Integer part of a rational, rounding toward zero. *)
Definition trunc (q : Q) : Z :=
  if Qle_bool 0 q then Qfloor q else Qceiling q.

(** [a % b] on numbers: the remainder has the sign of the dividend,
    [a - b * trunc (a / b)].  ([b = 0] gives NaN in JavaScript; the
    generator only divides by 24 and by 1.) *)
Definition rem (a b : Q) : Q := a - b * inject_Z (trunc (a / b)).

(** [Math.floor]. *)
Definition floor (q : Q) : Z := Qfloor q.

(** String conversion of an integral number, as in ['0' + day] and in a
    template literal. *)
Definition toString (z : Z) : string := NilZero.string_of_int (Z.to_int z).

End JS.

(** ** constants.ts *)

Record HydroDataPoint : Type := mkPoint {
  time : Q;
  label : string;
  stZacharie : R;
  roquevaire : R;
  aubagne : R;
  marseille : R
}.

Definition TOTAL_HOURS : Z := 48.
Definition STEPS_PER_HOUR : Z := 2.

Section Pulses.
Local Open Scope R_scope.

(** Base flow. *)
Definition base : R := 0.3.

(** 1. Runoff component, moving from Marseille (downstream) upstream. *)
Definition runoffMarseille (t : R) : R := 0.4 * exp (- (t - 6) ^ 2 / 8).
Definition runoffAubagne (t : R) : R := 0.5 * exp (- (t - 7) ^ 2 / 8).
Definition runoffRoquevaire (t : R) : R := 0.6 * exp (- (t - 8) ^ 2 / 8).
Definition runoffStZacharie (t : R) : R := 0.1 * exp (- (t - 9) ^ 2 / 8).

(** 2. Karst component, starting at the source (St Zacharie) and moving
    downstream. *)
Definition karstStZacharie (t : R) : R := 1.2 * exp (- (t - 16) ^ 2 / 15).
Definition karstRoquevaire (t : R) : R := 1.3 * exp (- (t - 17.5) ^ 2 / 18).
Definition karstAubagne (t : R) : R := 0.9 * exp (- (t - 19) ^ 2 / 20).
Definition karstMarseille (t : R) : R := 0.4 * exp (- (t - 21) ^ 2 / 25).

(** Composite heights. *)
Definition hMarseille (t : R) : R := base + runoffMarseille t + karstMarseille t.
Definition hAubagne (t : R) : R := base + runoffAubagne t + karstAubagne t.
Definition hRoquevaire (t : R) : R := base + runoffRoquevaire t + karstRoquevaire t.
Definition hStZacharie (t : R) : R := base + runoffStZacharie t + karstStZacharie t.

End Pulses.

Section Label.
Local Open Scope string_scope.

(** [x < 10 ? '0' + x : x] inside the template literal. *)
Definition pad2 (x : Z) : string :=
  if (x <? 10)%Z then "0" ++ JS.toString x else JS.toString x.

Definition day (t : Q) : Z := (JS.floor (t / 24) + 9)%Z.
Definition hour (t : Q) : Z := JS.floor (JS.rem t 24).
Definition min (t : Q) : Z := JS.floor (JS.rem t 1 * 60).

Definition mkLabel (t : Q) : string :=
  pad2 (day t) ++ "-02 " ++ pad2 (hour t) ++ ":" ++ pad2 (min t).

End Label.

(** The sample time of iteration [i]: [t = i / STEPS_PER_HOUR]. *)
Definition sampleTime (i : Z) : Q := inject_Z i / inject_Z STEPS_PER_HOUR.

(** The body of the loop: the object pushed at iteration [i]. *)
Definition dataPoint (i : Z) : HydroDataPoint :=
  let t := sampleTime i in
  {| time := t;
     label := mkLabel t;
     stZacharie := hStZacharie (Q2R t);
     roquevaire := hRoquevaire (Q2R t);
     aubagne := hAubagne (Q2R t);
     marseille := hMarseille (Q2R t) |}.

(** [for (let i = 0; i <= TOTAL_HOURS * STEPS_PER_HOUR; i++) { ...push... }]
    as a loop on the counter [i] and the array built so far; [fuel] bounds
    the number of iterations. *)
Fixpoint for_loop (fuel : nat) (i : Z) (acc : list HydroDataPoint)
  : list HydroDataPoint :=
  match fuel with
  | O => acc
  | S fuel' =>
      if (i <=? TOTAL_HOURS * STEPS_PER_HOUR)%Z
      then for_loop fuel' (i + 1)%Z (acc ++ [dataPoint i])
      else acc
  end.

Definition SIMULATION_DATA : list HydroDataPoint := for_loop 128 0%Z [].

Definition MAX_TIME : Q := inject_Z TOTAL_HOURS.

(** ** App.tsx: the playback state and its callbacks *)

(** The React state of [App] together with the two refs its callbacks
    touch.  [lastTimeRef = None] is [undefined]; [requestRef] records
    whether an animation frame is pending. *)
Record AppState : Type := mkApp {
  currentTime : Q;
  isPlaying : bool;
  playbackSpeed : Q;
  lastTimeRef : option Q;
  requestRef : bool
}.

Definition initialState : AppState :=
  {| currentTime := 0; isPlaying := false; playbackSpeed := 1;
     lastTimeRef := None; requestRef := false |}.

Definition setCurrentTime (v : Q) (s : AppState) : AppState :=
  {| currentTime := v; isPlaying := isPlaying s;
     playbackSpeed := playbackSpeed s; lastTimeRef := lastTimeRef s;
     requestRef := requestRef s |}.

Definition setIsPlaying (v : bool) (s : AppState) : AppState :=
  {| currentTime := currentTime s; isPlaying := v;
     playbackSpeed := playbackSpeed s; lastTimeRef := lastTimeRef s;
     requestRef := requestRef s |}.

Definition setPlaybackSpeed (v : Q) (s : AppState) : AppState :=
  {| currentTime := currentTime s; isPlaying := isPlaying s;
     playbackSpeed := v; lastTimeRef := lastTimeRef s;
     requestRef := requestRef s |}.

Definition setLastTimeRef (v : option Q) (s : AppState) : AppState :=
  {| currentTime := currentTime s; isPlaying := isPlaying s;
     playbackSpeed := playbackSpeed s; lastTimeRef := v;
     requestRef := requestRef s |}.

Definition setRequestRef (v : bool) (s : AppState) : AppState :=
  {| currentTime := currentTime s; isPlaying := isPlaying s;
     playbackSpeed := playbackSpeed s; lastTimeRef := lastTimeRef s;
     requestRef := v |}.

(** The updater passed to [setCurrentTime] inside [animate]. *)
Definition advance (deltaTime : Q) (s : AppState) : AppState :=
  let nextTime := currentTime s + (deltaTime * 2 * playbackSpeed s) in
  if Qle_bool MAX_TIME nextTime
  then setCurrentTime MAX_TIME (setIsPlaying false s)
  else setCurrentTime nextTime s.

(** [animate(time)], the frame callback.  [isPlaying] and [playbackSpeed]
    are the values of the render that scheduled the frame; the effect
    re-subscribes whenever either changes, so they are read from the state
    the frame starts in. *)
Definition animate (time : Q) (s : AppState) : AppState :=
  let s1 :=
    match lastTimeRef s with
    | Some last => advance ((time - last) / 1000) s
    | None => s
    end in
  let s2 := setLastTimeRef (Some time) s1 in
  if isPlaying s then setRequestRef true s2 else s2.

(** Successive frames, at the given timestamps. *)
Fixpoint frames (times : list Q) (s : AppState) : AppState :=
  match times with
  | [] => s
  | time :: rest => frames rest (animate time s)
  end.








Definition handleSeek (time : Q) (s : AppState) : AppState :=
  setCurrentTime time s.

Definition togglePlay (s : AppState) : AppState :=
  setIsPlaying (negb (isPlaying s)) s.

Definition handleSpeedChange (s : AppState) : AppState :=
  let prev := playbackSpeed s in
  setPlaybackSpeed (if Qle_bool 4 prev then 1 else prev * 2) s.

Definition handleReset (s : AppState) : AppState :=
  setCurrentTime 0 (setIsPlaying false s).

(** ** Sample lookup of the views *)

(** [data.find(d => d.time >= currentTime)]; [None] is [undefined]. *)
Definition findAtOrAfter (data : list HydroDataPoint) (now : Q)
  : option HydroDataPoint :=
  find (fun d => Qle_bool now (time d)) data.

(** [data.find(d => d.time >= currentTime) || data[data.length - 1]].  A
    sample is an object, hence truthy; indexing an empty array gives
    [undefined]. *)
Definition currentData (data : list HydroDataPoint) (now : Q)
  : option HydroDataPoint :=
  match findAtOrAfter data now with
  | Some d => Some d
  | None => nth_error data (List.length data - 1)
  end.

(** ** App.tsx: the effect, the events and the texts *)

(** [a < b] on numbers. *)
Definition Qlt_bool (a b : Q) : bool := negb (Qle_bool b a).

(** The effect on [[isPlaying, playbackSpeed]], preceded by the cleanup
    of its previous run: the cleanup cancels the pending frame; the body
    requests one when playing, and otherwise forgets the last timestamp
    and cancels. *)
Definition effect (s : AppState) : AppState :=
  if isPlaying s
  then setRequestRef true s
  else setRequestRef false (setLastTimeRef None s).

(** The render that follows a callback: the effect runs when one of its
    two dependencies has changed. *)
Definition rerender (before after : AppState) : AppState :=
  if Bool.eqb (isPlaying before) (isPlaying after)
     && Qeq_bool (playbackSpeed before) (playbackSpeed after)
  then after
  else effect after.

(** What can happen to the mounted component: a click on one of the
    three buttons, a move of the slider, or the browser running the
    animation frame callback. *)
Inductive Event : Type :=
| ClickPlayPause
| ClickReset
| ClickSpeed
| Slide (t : Q)
| AnimationFrame (time : Q).

(** The callback bound to each event.  The browser runs [animate] only
    when a frame has been requested and not cancelled. *)
Definition handle (e : Event) (s : AppState) : AppState :=
  match e with
  | ClickPlayPause => togglePlay s
  | ClickReset => handleReset s
  | ClickSpeed => handleSpeedChange s
  | Slide t => handleSeek t s
  | AnimationFrame time => if requestRef s then animate time s else s
  end.

Definition dispatch (e : Event) (s : AppState) : AppState :=
  rerender s (handle e s).

Fixpoint run (events : list Event) (s : AppState) : AppState :=
  match events with
  | [] => s
  | e :: rest => run rest (dispatch e s)
  end.

(** The phase bar above the view: [currentTime < 11 ? ... : ...]. *)
Inductive PhaseBar : Type := Phase1Ruissellement | Phase2Karst.

Definition phaseBar (currentTime : Q) : PhaseBar :=
  if Qlt_bool currentTime 11 then Phase1Ruissellement else Phase2Karst.

(** The paragraph of the analysis box, by its first words. *)
Inductive Analysis : Type := DebutEpisode | Phase1Text | Phase2Text | Decrue.

Definition analysis (currentTime : Q) : Analysis :=
  if Qlt_bool currentTime 2 then DebutEpisode
  else if Qlt_bool currentTime 11 then Phase1Text
  else if Qlt_bool currentTime 24 then Phase2Text
  else Decrue.

(** ** Controls *)

Module Controls.

(** Width of the filled part of the slider, in percent. *)
Definition percentage (currentTime maxTime : Q) : Q :=
  (currentTime / maxTime) * 100.

(** The two numbers of the readout [T + {hours}h {minutes}m]. *)
Definition hours (currentTime : Q) : Z := JS.floor currentTime.
Definition minutes (currentTime : Q) : Z := JS.floor (JS.rem currentTime 1 * 60).

End Controls.

(** ** Hydrograph *)

Module Hydrograph.

(** The position of the time cursor:
    [data.find(d => d.time >= currentTime)?.label]. *)
Definition cursor (data : list HydroDataPoint) (currentTime : Q)
  : option string :=
  match findAtOrAfter data currentTime with
  | Some d => Some (label d)
  | None => None
  end.

(** The domain of the vertical axis, [[0, 2.5]]. *)
Definition domainMin : R := 0%R.
Definition domainMax : R := 2.5%R.

End Hydrograph.

(** ** three.js *)

Module THREE.

(** [MathUtils.lerp(x, y, t)], which three.js defines as
    [(1 - t) * x + t * y]; on times and on levels. *)
Definition lerp (x y t : Q) : Q := (1 - t) * x + t * y.

End THREE.

(** ** StationMap *)

Module StationMap.

(** The fill of the gauge icon in percent, from [createLimnimeterIcon]. *)
Definition maxLevel : R := 3.0%R.
Definition percentage (level : R) : R :=
  Rmin ((level / maxLevel) * 100) 100.

End StationMap.

(** ** FloodSimulation *)

Module FloodSimulation.

(** *** CameraController *)




(** *** KarstLabels *)

(** What [KarstLabels] renders: nothing ([null]), or a group with each
    of its two labels present or not. *)
Record Labels : Type := mkLabels { infiltration : bool; decharge : bool }.

Definition karstLabels (currentTime : Q) : option Labels :=
  let infiltrationStart := 10 in
  let infiltrationDuration := 3 in
  let rawProgress :=
    if Qle_bool infiltrationStart currentTime
    then (currentTime - infiltrationStart) / infiltrationDuration
    else 0 in
  let progress := Qmin rawProgress 1 in
  if Qle_bool progress 0 then None
  else Some {| infiltration := Qlt_bool (1 # 10) progress && Qlt_bool currentTime 15;
               decharge := Qle_bool (95 # 100) progress && Qlt_bool currentTime 26 |}.

(** *** RunoffArrows and RainFrontSystem *)

Definition arrowsActive (currentTime : Q) : bool :=
  Qlt_bool (1 # 2) currentTime && Qlt_bool currentTime 11.

(** The cloud front as [RunoffArrows] computes it. *)
Definition cloudX (currentTime : Q) : Q :=
  let cloudStartX := 60 in
  let cloudEndX := -60 in
  THREE.lerp cloudStartX cloudEndX (Qmin (currentTime / 11) 1).

(** The rain front: [null] after 12 h, otherwise its abscissa. *)
Definition rainFront (currentTime : Q) : option Q :=
  if Qlt_bool 12 currentTime then None
  else
    let startX := 60 in
    let endX := -60 in
    Some (THREE.lerp startX endX (currentTime / 11)).

(** The caption [RUISSELLEMENT DE SURFACE] of the scene. *)
Definition runoffCaption (currentTime : Q) : bool :=
  Qlt_bool 2 currentTime && Qlt_bool currentTime 11.

(** The depth of one arrow at clock time [time], from the body of
    [items.forEach]; [side] is [true] for [1] and [false] for [-1]. *)
Definition arrowZ (side : bool) (speed offset time : Q) : Q :=
  let progress := JS.rem (time * speed + offset) 30 in
  if side
  then let zPos := 40 - progress in if Qlt_bool zPos 6 then 40 else zPos
  else let zPos := -40 + progress in if Qlt_bool (-6) zPos then -40 else zPos.

(** *** FallingRain *)

(** One frame of one drop: it falls by its speed and restarts from the
    top once below [-5]. *)
Definition dropFrame (speed y : Q) : Q :=
  let y' := y - speed in
  if Qlt_bool y' (-5) then 20 else y'.

Fixpoint dropFrames (n : nat) (speed y : Q) : Q :=
  match n with
  | O => y
  | S n' => dropFrames n' speed (dropFrame speed y)
  end.

(** *** Limnimeter *)

Section Limnimeter.
Local Open Scope R_scope.

Definition visualScale : R := 8.
Definition visualHeight (level : R) : R := Rmax 0.2 (level * visualScale).
Definition bottomY : R := -5.
Definition centerY (level : R) : R := bottomY + (visualHeight level / 2).
Definition topSurfaceY (level : R) : R := bottomY + visualHeight level.

(** The glass tube: a cylinder of height 19 centred at 4.5. *)
Definition tubeBottom : R := 4.5 - 19 / 2.
Definition tubeTop : R := 4.5 + 19 / 2.

End Limnimeter.

(** *** DynamicWater *)

Section DynamicWater.
Local Open Scope R_scope.



(** Height of the vertex above the bed, with the vertical exaggeration. *)
Definition zHeight (level : R) : R := -4.5 + (level * 2.5).

End DynamicWater.

End FloodSimulation.

(** * Vocabulary of the properties *)

Section Vocabulary.
Local Open Scope Q_scope.

(** The loop counter takes the values [0 .. 96]. *)
Definition sampleCount : nat := 97.

(** Samples ordered by strictly increasing time. *)
Definition byTime (d e : HydroDataPoint) : Prop := time d < time e.

(** [clamp(t, lo, hi)] as the specification of [seek] words it: below
    [lo] the result is [lo], above [hi] it is [hi], otherwise [t]. *)
Definition clamp (t lo hi : Q) : Q :=
  if Qlt_le_dec t lo then lo else if Qlt_le_dec hi t then hi else t.

(** The speeds of the cycle. *)
Definition cycleSpeed (q : Q) : Prop := q == 1 \/ q == 2 \/ q == 4.

(** Timestamps that never go back, starting from [prev]. *)
Fixpoint nondecreasing (prev : Q) (times : list Q) : Prop :=
  match times with
  | [] => True
  | time :: rest => prev <= time /\ nondecreasing time rest
  end.

(** The unclamped time after a frame at [time], the previous frame being
    at [prev]. *)
Definition nextTime (s : AppState) (prev time : Q) : Q :=
  currentTime s + ((time - prev) / 1000 * 2 * playbackSpeed s).


(** A playing state close to the end, at speed 4. *)
Definition nearEnd : AppState :=
  {| currentTime := 47; isPlaying := true; playbackSpeed := 4;
     lastTimeRef := Some 0; requestRef := true |}.

Definition isDigit (c : ascii) : bool :=
  (48 <=? nat_of_ascii c)%nat && (nat_of_ascii c <=? 57)%nat.

(** The shape [DD-MM HH:MM]: two digits, a dash, two digits, a space, two
    digits, a colon, two digits. *)
Definition is_DD_MM_HH_MM (s : string) : bool :=
  match list_ascii_of_string s with
  | [d1; d2; dash; m1; m2; space; h1; h2; colon; n1; n2] =>
      isDigit d1 && isDigit d2 && Ascii.eqb dash "-" &&
      isDigit m1 && isDigit m2 && Ascii.eqb space " " &&
      isDigit h1 && isDigit h2 && Ascii.eqb colon ":" &&
      isDigit n1 && isDigit n2
  | _ => false
  end.

(** What the labels of the series are checked for, sample by sample: the
    shape, the ranges of the three numbers, that [%] is the remainder of
    the floored division at these times, and that day, hour and minute
    give the time back. *)
Definition labelCheck (k : Z) : bool :=
  let t := sampleTime k in
  is_DD_MM_HH_MM (mkLabel t) &&
  (9 <=? day t)%Z && (day t <=? 11)%Z &&
  (0 <=? hour t)%Z && (hour t <? 24)%Z &&
  (0 <=? min t)%Z && (min t <? 60)%Z &&
  Qeq_bool (JS.rem t 24) (t - 24 * inject_Z (Qfloor (t / 24))) &&
  Qeq_bool (JS.rem t 1) (t - inject_Z (Qfloor t)) &&
  Qeq_bool t (24 * inject_Z (day t - 9) + inject_Z (hour t) + inject_Z (min t) / 60).

(** The character of a decimal digit. *)
Definition digitChar (n : Z) : ascii :=
  match n with
  | 0 => "0" | 1 => "1" | 2 => "2" | 3 => "3" | 4 => "4"
  | 5 => "5" | 6 => "6" | 7 => "7" | 8 => "8" | 9 => "9"
  | _ => "?"
  end%Z%char.

(** A number below 100 written with two digits, tens first. *)
Definition twoDigits (n : Z) : string :=
  String (digitChar (n / 10)) (String (digitChar (n mod 10)) EmptyString).

(** The label as the specification words it, from the time alone: the
    day [floor (t / 24) + 9], the month [02], the hour, which is the
    floor of [t] modulo 24, and the minute, which is the floor of sixty
    times the fractional part of [t], each on two digits. *)
Definition labelSpec (t : Q) : string :=
  (twoDigits (Qfloor (t / 24) + 9) ++ "-02 " ++
   twoDigits (Qfloor (t - 24 * inject_Z (Qfloor (t / 24)))) ++ ":" ++
   twoDigits (Qfloor ((t - inject_Z (Qfloor t)) * 60)))%string.

Definition labelSpecCheck (k : Z) : bool :=
  String.eqb (mkLabel (sampleTime k)) (labelSpec (sampleTime k)).

End Vocabulary.

Section PulseVocabulary.
Local Open Scope R_scope.

(** [f] has its single maximum at time [p], of height [a]. *)
Definition peaks_at (f : R -> R) (p a : R) : Prop :=
  f p = a /\ forall t, t <> p -> f t < a.

(** [g] peaks strictly later than [f]. *)
Definition peaks_later (f g : R -> R) : Prop :=
  exists pf af pg ag, peaks_at f pf af /\ peaks_at g pg ag /\ pf < pg.

(** The amplitude of [f] is strictly smaller than that of [g]. *)
Definition peaks_lower (f g : R -> R) : Prop :=
  exists pf af pg ag, peaks_at f pf af /\ peaks_at g pg ag /\ af < ag.

(** The loop evaluates the pulses at time [p]. *)
Definition sampled_at (p : R) : Prop :=
  exists d, In d SIMULATION_DATA /\ Q2R (time d) = p.

(** In every sample of the series the given reading is the base flow
    plus the runoff pulse plus the karst pulse, both taken at the time
    of the sample. *)
Definition carries (reading : HydroDataPoint -> R) (runoff karst : R -> R)
  : Prop :=
  Forall (fun d => reading d
                   = base + runoff (Q2R (time d)) + karst (Q2R (time d)))
         SIMULATION_DATA.

(** In the series the pulse [f] is highest in the sample of time [p],
    where it contributes [a] to the reading, and contributes strictly
    less in every other sample. *)
Definition peaks_in_series (f : R -> R) (p a : R) : Prop :=
  (exists d, In d SIMULATION_DATA /\ Q2R (time d) = p /\ f (Q2R (time d)) = a) /\
  forall e, In e SIMULATION_DATA -> Q2R (time e) <> p -> f (Q2R (time e)) < a.

End PulseVocabulary.

Section EventVocabulary.
Local Open Scope Q_scope.

(** The events the page can deliver in a state: the slider has [min=0]
    and [max=maxTime], and the timestamps the browser passes to frame
    callbacks never go back. *)
Definition admissible (e : Event) (s : AppState) : Prop :=
  match e with
  | Slide t => 0 <= t <= MAX_TIME
  | AnimationFrame time =>
      match lastTimeRef s with
      | Some prev => prev <= time
      | None => True
      end
  | _ => True
  end.

Fixpoint admissibleRun (events : list Event) (s : AppState) : Prop :=
  match events with
  | [] => True
  | e :: rest => admissible e s /\ admissibleRun rest (dispatch e s)
  end.

(** What holds of the state between events. *)
Definition wellFormed (s : AppState) : Prop :=
  0 <= currentTime s <= MAX_TIME /\
  cycleSpeed (playbackSpeed s) /\
  requestRef s = isPlaying s /\
  (isPlaying s = false -> lastTimeRef s = None).

End EventVocabulary.

(** The check that no two of the given loop counters give the same
    label. *)
Definition labelsDistinct (counters : list Z) : bool :=
  forallb (fun i =>
             forallb (fun j =>
                        implb (String.eqb (mkLabel (sampleTime i))
                                          (mkLabel (sampleTime j)))
                              (Z.eqb i j))
                     counters)
          counters.

(** The four gauge readings of a sample, from the source to the mouth. *)
Definition readings (d : HydroDataPoint) : list R :=
  [stZacharie d; roquevaire d; aubagne d; marseille d].

(** * Properties *)

(** ** The loop of the generator *)

Section Generator.

Lemma loop_bound : (TOTAL_HOURS * STEPS_PER_HOUR)%Z = 96%Z.
Proof. reflexivity. Qed.

(** Started at [i] with [n] iterations left before the bound and at
    least that much fuel, the loop appends the [n] points from [i] on. *)
Lemma for_loop_appends (n : nat) :
  forall fuel i acc,
    (0 <= i)%Z -> (i + Z.of_nat n = 97)%Z -> (n <= fuel)%nat ->
    for_loop fuel i acc =
    acc ++ map (fun k => dataPoint (Z.of_nat k)) (seq (Z.to_nat i) n).
Proof.
  induction n as [|n IH]; intros fuel i acc Hi Hn Hfuel.
  - cbn [seq map]. rewrite app_nil_r. destruct fuel as [|fuel]; [reflexivity|].
    cbn [for_loop]. rewrite loop_bound.
    destruct (Z.leb_spec i 96); [lia | reflexivity].
  - destruct fuel as [|fuel]; [lia|].
    cbn [for_loop]. rewrite loop_bound.
    destruct (Z.leb_spec i 96); [|lia].
    rewrite (IH fuel (i + 1)%Z) by lia.
    rewrite <- app_assoc. cbn [seq map app].
    replace (Z.to_nat (i + 1)) with (S (Z.to_nat i)) by lia.
    rewrite Z2Nat.id by assumption. reflexivity.
Qed.

Lemma SIMULATION_DATA_map :
  SIMULATION_DATA = map (fun k => dataPoint (Z.of_nat k)) (seq 0 sampleCount).
Proof.
  unfold SIMULATION_DATA.
  rewrite (for_loop_appends 97 128 0%Z []); [reflexivity | lia | reflexivity | lia].
Qed.

(** The loop leaves through its test, not for lack of fuel: any larger
    budget builds the same array. *)
Lemma for_loop_enough_fuel (fuel : nat) :
  (sampleCount <= fuel)%nat -> for_loop fuel 0%Z [] = SIMULATION_DATA.
Proof.
  intros H. rewrite SIMULATION_DATA_map.
  rewrite (for_loop_appends 97 fuel 0%Z []); [reflexivity | lia | reflexivity | exact H].
Qed.

Lemma SIMULATION_DATA_length : List.length SIMULATION_DATA = sampleCount.
Proof. rewrite SIMULATION_DATA_map, length_map, length_seq. reflexivity. Qed.

Lemma SIMULATION_DATA_nth (i : nat) (d : HydroDataPoint) :
  nth_error SIMULATION_DATA i = Some d <->
  (i < sampleCount)%nat /\ d = dataPoint (Z.of_nat i).
Proof.
  rewrite SIMULATION_DATA_map. split.
  - intros H.
    assert (Hi : (i < sampleCount)%nat).
    { assert (Hlen : (i < List.length (map (fun k => dataPoint (Z.of_nat k))
                                           (seq 0 sampleCount)))%nat)
        by (apply nth_error_Some; congruence).
      rewrite length_map, length_seq in Hlen. exact Hlen. }
    split; [exact Hi|].
    rewrite nth_error_map, (nth_error_seq _ _ _) in H.
    destruct (Nat.ltb_spec i sampleCount); [|lia].
    simpl in H. congruence.
  - intros [Hi ->].
    rewrite nth_error_map, nth_error_seq.
    destruct (Nat.ltb_spec i sampleCount); [reflexivity | lia].
Qed.

Lemma SIMULATION_DATA_In (d : HydroDataPoint) :
  In d SIMULATION_DATA <->
  exists k, (k < sampleCount)%nat /\ d = dataPoint (Z.of_nat k).
Proof.
  rewrite SIMULATION_DATA_map, in_map_iff. split.
  - intros [k [<- Hk]]. apply in_seq in Hk. exists k. split; [lia | reflexivity].
  - intros [k [Hk ->]]. exists k. split; [reflexivity | apply in_seq; lia].
Qed.

End Generator.

(** ** Sample times *)

Section SeriesTimes.
Local Open Scope Q_scope.

Lemma sampleTime_half (i : Z) : sampleTime i == i # 2.
Proof. unfold sampleTime, Qdiv, Qeq. simpl. lia. Qed.

Lemma sampleTime_lt (i j : Z) : (i < j)%Z -> sampleTime i < sampleTime j.
Proof. intros H. rewrite !sampleTime_half. unfold Qlt. simpl. lia. Qed.

Lemma sampleTime_inj (i j : Z) : sampleTime i == sampleTime j -> i = j.
Proof. rewrite !sampleTime_half. unfold Qeq. simpl. lia. Qed.

Lemma sampleTime_step (i : Z) : sampleTime (i + 1) - sampleTime i == 1 # 2.
Proof. rewrite !sampleTime_half. unfold Qeq, Qminus, Qplus, Qopp. simpl. lia. Qed.

(** Strictly increasing times, position by position. *)
Lemma SIMULATION_DATA_increasing (i j : nat) (d e : HydroDataPoint) :
  (i < j)%nat ->
  nth_error SIMULATION_DATA i = Some d ->
  nth_error SIMULATION_DATA j = Some e ->
  time d < time e.
Proof.
  intros Hij Hd He.
  apply SIMULATION_DATA_nth in Hd as [_ ->].
  apply SIMULATION_DATA_nth in He as [_ ->].
  apply sampleTime_lt. lia.
Qed.

(** The array as a strictly sorted list, the form the lookup uses. *)
Lemma SIMULATION_DATA_sorted :
  StronglySorted (fun d e => time d < time e) SIMULATION_DATA.
Proof.
  rewrite SIMULATION_DATA_map. generalize sampleCount, 0%nat.
  intros n. induction n as [|n IH]; intros a; simpl; constructor.
  - apply IH.
  - apply Forall_forall. intros e He.
    apply in_map_iff in He as [k [<- Hk]]. apply in_seq in Hk.
    apply sampleTime_lt. lia.
Qed.

(** C5.  The generated series has 97 samples, that is duration / step +
    1 with duration 48 and step 0.5; consecutive samples are exactly 0.5
    apart, so times increase strictly along the array; the first time is
    0 and the last is 48 = [MAX_TIME]. *)
Theorem series_length_and_times :
  List.length SIMULATION_DATA = 97%nat /\
  inject_Z (Z.of_nat (List.length SIMULATION_DATA))
    == inject_Z TOTAL_HOURS / (1 # 2) + 1 /\
  (forall i d e,
      nth_error SIMULATION_DATA i = Some d ->
      nth_error SIMULATION_DATA (S i) = Some e ->
      time d < time e /\ time e - time d == 1 # 2) /\
  (forall i j d e,
      (i < j)%nat ->
      nth_error SIMULATION_DATA i = Some d ->
      nth_error SIMULATION_DATA j = Some e ->
      time d < time e) /\
  (exists d, hd_error SIMULATION_DATA = Some d /\ time d == 0) /\
  (exists d,
      nth_error SIMULATION_DATA (List.length SIMULATION_DATA - 1) = Some d /\
      time d == 48 /\ time d == MAX_TIME).
Proof.
  split; [exact SIMULATION_DATA_length|].
  split; [rewrite SIMULATION_DATA_length; reflexivity|].
  split.
  { intros i d e Hd He. split.
    - apply (SIMULATION_DATA_increasing i (S i)); auto.
    - apply SIMULATION_DATA_nth in Hd as [_ ->].
      apply SIMULATION_DATA_nth in He as [_ ->].
      cbn [time dataPoint]. rewrite Nat2Z.inj_succ, <- Z.add_1_r.
      apply sampleTime_step. }
  split; [exact SIMULATION_DATA_increasing|].
  split.
  - exists (dataPoint 0). split; [|reflexivity].
    rewrite SIMULATION_DATA_map. reflexivity.
  - exists (dataPoint 96). rewrite SIMULATION_DATA_length.
    split; [|split; reflexivity].
    apply SIMULATION_DATA_nth. split; [unfold sampleCount; lia | reflexivity].
Qed.

End SeriesTimes.

(** ** Sample lookup *)

Section Lookup.
Local Open Scope Q_scope.

(** [find] returns the first element that passes the test. *)
Lemma find_first {A : Type} (f : A -> bool) (l : list A) (x : A) :
  find f l = Some x ->
  exists l1 l2,
    l = l1 ++ x :: l2 /\ f x = true /\ forall y, In y l1 -> f y = false.
Proof.
  induction l as [|a l IH]; simpl; [discriminate|].
  destruct (f a) eqn:Hfa.
  - intros [= <-]. exists [], l. repeat split; [exact Hfa | intros y []].
  - intros H. destruct (IH H) as (l1 & l2 & -> & Hx & Hl1).
    exists (a :: l1), l2. repeat split; [exact Hx|].
    intros y [<- | Hy]; [exact Hfa | exact (Hl1 y Hy)].
Qed.

Lemma sorted_after {A : Type} (R : A -> A -> Prop) (l1 l2 : list A) (x : A) :
  StronglySorted R (l1 ++ x :: l2) -> Forall (R x) l2.
Proof.
  induction l1 as [|a l1 IH]; simpl; intros H;
    apply StronglySorted_inv in H as [Hs Hf]; [exact Hf | exact (IH Hs)].
Qed.

Lemma find_pointwise {A : Type} (f g : A -> bool) (l : list A) :
  (forall x, f x = g x) -> find f l = find g l.
Proof.
  intros H. induction l as [|a l IH]; simpl; [reflexivity|].
  rewrite H, IH. reflexivity.
Qed.

Lemma atOrAfter_true (now : Q) (d : HydroDataPoint) :
  Qle_bool now (time d) = true <-> now <= time d.
Proof. apply Qle_bool_iff. Qed.

Lemma atOrAfter_false (now : Q) (d : HydroDataPoint) :
  Qle_bool now (time d) = false <-> time d < now.
Proof.
  rewrite <- not_true_iff_false, atOrAfter_true. split.
  - apply Qnot_le_lt.
  - apply Qlt_not_le.
Qed.

(** The lookup does not depend on how [now] is written as a fraction. *)
Lemma currentData_Qeq (data : list HydroDataPoint) (now now' : Q) :
  now' == now -> currentData data now' = currentData data now.
Proof.
  intros H. unfold currentData, findAtOrAfter.
  rewrite (find_pointwise (fun d => Qle_bool now' (time d))
                          (fun d => Qle_bool now (time d))); [reflexivity|].
  intros d. rewrite H. reflexivity.
Qed.

Section Sorted.
Variable data : list HydroDataPoint.
Variable now : Q.
Hypothesis data_sorted : StronglySorted byTime data.
Hypothesis data_nonempty : data <> [].

(** On a strictly sorted, non-empty series the lookup is total; its
    result is the sample of least time at or after [now] when one
    exists, the sample whose time is [now] when there is one, and the
    last sample when every time is before [now]. *)
Lemma currentData_sorted :
  exists d,
    currentData data now = Some d /\ In d data /\
    ((exists e, In e data /\ now <= time e) ->
     now <= time d /\
     forall e, In e data -> now <= time e -> time d <= time e) /\
    (forall e, In e data -> time e == now -> d = e) /\
    ((forall e, In e data -> time e < now) ->
     nth_error data (List.length data - 1) = Some d).
Proof.
  unfold currentData, findAtOrAfter.
  destruct (find (fun d => Qle_bool now (time d)) data) as [d|] eqn:Hfind.
  - destruct (find_first _ _ _ Hfind) as (l1 & l2 & Hsplit & Hd & Hbefore).
    apply atOrAfter_true in Hd.
    assert (Hafter : Forall (byTime d) l2)
      by (apply (sorted_after byTime l1); rewrite <- Hsplit; exact data_sorted).
    rewrite Forall_forall in Hafter.
    assert (Hin : In d data) by (rewrite Hsplit; apply in_elt).
    assert (Hcases : forall e, In e data -> now <= time e ->
                               e = d \/ time d < time e).
    { intros e He Hle. rewrite Hsplit in He.
      apply in_app_or in He as [He | [<- | He]].
      - apply Hbefore, atOrAfter_false in He.
        exfalso. exact (Qlt_not_le _ _ He Hle).
      - left; reflexivity.
      - right. exact (Hafter e He). }
    exists d. repeat split; auto.
    + intros e He Hle. destruct (Hcases e He Hle) as [-> | Hlt].
      * apply Qle_refl.
      * apply Qlt_le_weak, Hlt.
    + intros e He Heq.
      destruct (Hcases e He) as [-> | Hlt]; [rewrite Heq; apply Qle_refl | reflexivity |].
      exfalso. rewrite Heq in Hlt. exact (Qlt_not_le _ _ Hlt Hd).
    + intros Hall. exfalso. exact (Qlt_not_le _ _ (Hall d Hin) Hd).
  - assert (Hall : forall e, In e data -> time e < now).
    { intros e He. apply atOrAfter_false. exact (find_none _ _ Hfind e He). }
    destruct (nth_error data (List.length data - 1)) as [d|] eqn:Hlast.
    + exists d. repeat split; auto.
      * apply (nth_error_In _ _ Hlast).
      * destruct H as [e [He Hle]]. exfalso. exact (Qlt_not_le _ _ (Hall e He) Hle).
      * destruct H as [e [He Hle]]. exfalso. exact (Qlt_not_le _ _ (Hall e He) Hle).
      * intros e He Heq. exfalso. apply (Qlt_irrefl now).
        rewrite <- Heq at 1. exact (Hall e He).
    + exfalso. apply nth_error_None in Hlast.
      destruct data; [apply data_nonempty; reflexivity | simpl in Hlast; lia].
Qed.

End Sorted.

(** The lookup on the generated series, by index: the sample [k] is
    returned when [now] lies in the half-open interval that ends at
    its time and starts at the time of the sample before. *)
Lemma currentData_index (now : Q) (k : nat) :
  (k < sampleCount)%nat ->
  now <= sampleTime (Z.of_nat k) ->
  k = 0%nat \/ sampleTime (Z.of_nat k - 1) < now ->
  currentData SIMULATION_DATA now = Some (dataPoint (Z.of_nat k)).
Proof.
  intros Hk Hle Hprev.
  destruct (currentData_sorted SIMULATION_DATA now SIMULATION_DATA_sorted)
    as (d & Hd & Hin & Hleast & _).
  { rewrite SIMULATION_DATA_map. discriminate. }
  rewrite Hd. f_equal.
  assert (Hink : In (dataPoint (Z.of_nat k)) SIMULATION_DATA)
    by (apply SIMULATION_DATA_In; exists k; auto).
  destruct Hleast as [Hnow Hmin]; [exists (dataPoint (Z.of_nat k)); auto|].
  specialize (Hmin _ Hink Hle).
  apply SIMULATION_DATA_In in Hin as [j [Hj ->]].
  cbn [time dataPoint] in Hnow, Hmin.
  destruct (Nat.lt_trichotomy j k) as [Hlt | [-> | Hgt]]; [|reflexivity|].
  - exfalso. destruct Hprev as [-> | Hprev]; [lia|].
    apply (Qlt_irrefl now). eapply Qle_lt_trans; [exact Hnow|].
    eapply Qle_lt_trans; [|exact Hprev].
    destruct (Z.eq_dec (Z.of_nat j) (Z.of_nat k - 1)) as [-> | Hne];
      [apply Qle_refl | apply Qlt_le_weak, sampleTime_lt; lia].
  - exfalso. apply (Qlt_irrefl (sampleTime (Z.of_nat k))).
    eapply Qlt_le_trans; [apply (sampleTime_lt (Z.of_nat k) (Z.of_nat j)); lia|].
    exact Hmin.
Qed.

Lemma currentData_past_end (now : Q) :
  MAX_TIME < now -> currentData SIMULATION_DATA now = Some (dataPoint 96).
Proof.
  intros Hnow.
  destruct (currentData_sorted SIMULATION_DATA now SIMULATION_DATA_sorted)
    as (d & Hd & _ & _ & _ & Hlast).
  { rewrite SIMULATION_DATA_map. discriminate. }
  rewrite Hd, <- Hlast.
  - rewrite SIMULATION_DATA_length. symmetry.
    apply (SIMULATION_DATA_nth 96). split; [unfold sampleCount; lia | reflexivity].
  - intros e He. apply SIMULATION_DATA_In in He as [j [Hj ->]].
    cbn [time dataPoint]. eapply Qle_lt_trans; [|exact Hnow].
    destruct (Z.eq_dec (Z.of_nat j) 96) as [-> | Hne];
      [discriminate | apply Qlt_le_weak].
    eapply Qlt_le_trans; [apply (sampleTime_lt _ 96); unfold sampleCount in Hj; lia|].
    discriminate.
Qed.

Example currentData_exact_16 :
  currentData SIMULATION_DATA 16 = Some (dataPoint 32).
Proof.
  apply (currentData_index 16 32);
    [unfold sampleCount; lia | discriminate | right; reflexivity].
Qed.

Example currentData_between :
  currentData SIMULATION_DATA (81 # 5) = Some (dataPoint 33).
Proof.
  apply (currentData_index (81 # 5) 33);
    [unfold sampleCount; lia | discriminate | right; reflexivity].
Qed.

Example currentData_before_start :
  currentData SIMULATION_DATA (-5) = Some (dataPoint 0).
Proof.
  apply (currentData_index (-5) 0);
    [unfold sampleCount; lia | discriminate | left; reflexivity].
Qed.

Example currentData_after_end :
  currentData SIMULATION_DATA 100 = Some (dataPoint 96).
Proof. apply currentData_past_end. reflexivity. Qed.

(** C4.  On the generated series the lookup always returns a sample.  It
    is the sample of least time at or after [now] when such a sample
    exists; it is the sample whose time is [now] when there is one; it
    is the last sample when [now] is after every sample time; and it is
    the same for every way of writing the same [now]. *)
Theorem currentData_contract (now : Q) :
  exists d,
    currentData SIMULATION_DATA now = Some d /\ In d SIMULATION_DATA /\
    ((exists e, In e SIMULATION_DATA /\ now <= time e) ->
     now <= time d /\
     forall e, In e SIMULATION_DATA -> now <= time e -> time d <= time e) /\
    (forall e, In e SIMULATION_DATA -> time e == now -> d = e) /\
    ((forall e, In e SIMULATION_DATA -> time e < now) ->
     nth_error SIMULATION_DATA (List.length SIMULATION_DATA - 1) = Some d /\
     d = dataPoint 96) /\
    (forall now', now' == now -> currentData SIMULATION_DATA now' = Some d).
Proof.
  destruct (currentData_sorted SIMULATION_DATA now SIMULATION_DATA_sorted)
    as (d & Hd & Hin & Hleast & Hexact & Hlast).
  { rewrite SIMULATION_DATA_map. discriminate. }
  exists d. repeat split; auto.
  - apply (Hleast H).
  - apply (Hleast H).
  - specialize (Hlast H). rewrite SIMULATION_DATA_length in Hlast.
    apply SIMULATION_DATA_nth in Hlast as [_ ->]. reflexivity.
  - intros now' Heq. rewrite (currentData_Qeq _ now now' Heq). exact Hd.
Qed.

End Lookup.

(** ** Shape of the pulses *)

Section PulseShape.
Local Open Scope R_scope.

Lemma peaks_at_unique (f : R -> R) (p a p' a' : R) :
  peaks_at f p a -> peaks_at f p' a' -> p = p' /\ a = a'.
Proof.
  intros [Hp Hmax] [Hp' Hmax'].
  destruct (Req_dec p p') as [-> | Hne].
  - split; [reflexivity | congruence].
  - exfalso.
    assert (H1 : f p' < a) by (apply Hmax; auto).
    assert (H2 : f p < a') by (apply Hmax'; auto).
    lra.
Qed.

Lemma gaussian_peak (a p w : R) :
  0 < a -> 0 < w -> peaks_at (fun t => a * exp (- (t - p) ^ 2 / w)) p a.
Proof.
  intros Ha Hw. split.
  - replace (- (p - p) ^ 2 / w) with 0 by (field; lra).
    rewrite exp_0. ring.
  - intros t Ht.
    assert (Hneg : - (t - p) ^ 2 / w < 0).
    { assert (Hinv : 0 < / w) by (apply Rinv_0_lt_compat; exact Hw).
      assert (Hsq : 0 < (t - p) * (t - p)) by (apply Rsqr_pos_lt; lra).
      unfold Rdiv. simpl. nra. }
    apply exp_increasing in Hneg. rewrite exp_0 in Hneg. nra.
Qed.

Lemma gaussian_pos (a p w t : R) : 0 < a -> 0 < a * exp (- (t - p) ^ 2 / w).
Proof. intros Ha. apply Rmult_lt_0_compat; [exact Ha | apply exp_pos]. Qed.

Lemma runoffMarseille_peak : peaks_at runoffMarseille 6 0.4.
Proof. apply (gaussian_peak 0.4 6 8); lra. Qed.

Lemma runoffAubagne_peak : peaks_at runoffAubagne 7 0.5.
Proof. apply (gaussian_peak 0.5 7 8); lra. Qed.

Lemma runoffRoquevaire_peak : peaks_at runoffRoquevaire 8 0.6.
Proof. apply (gaussian_peak 0.6 8 8); lra. Qed.

Lemma runoffStZacharie_peak : peaks_at runoffStZacharie 9 0.1.
Proof. apply (gaussian_peak 0.1 9 8); lra. Qed.

Lemma karstStZacharie_peak : peaks_at karstStZacharie 16 1.2.
Proof. apply (gaussian_peak 1.2 16 15); lra. Qed.

Lemma karstRoquevaire_peak : peaks_at karstRoquevaire 17.5 1.3.
Proof. apply (gaussian_peak 1.3 17.5 18); lra. Qed.

Lemma karstAubagne_peak : peaks_at karstAubagne 19 0.9.
Proof. apply (gaussian_peak 0.9 19 20); lra. Qed.

Lemma karstMarseille_peak : peaks_at karstMarseille 21 0.4.
Proof. apply (gaussian_peak 0.4 21 25); lra. Qed.

Lemma sampled_at_index (k : nat) (p : R) :
  (k < sampleCount)%nat -> IZR (Z.of_nat k) / 2 = p -> sampled_at p.
Proof.
  intros Hk <-. exists (dataPoint (Z.of_nat k)). split.
  - apply SIMULATION_DATA_In. exists k. auto.
  - unfold Q2R. simpl. rewrite Z.mul_1_r. reflexivity.
Qed.

End PulseShape.

Section SeriesCarriesPulses.
Local Open Scope R_scope.

Lemma carries_stZacharie : carries stZacharie runoffStZacharie karstStZacharie.
Proof.
  apply Forall_forall. intros d Hd.
  apply SIMULATION_DATA_In in Hd as [k [_ ->]]. reflexivity.
Qed.

Lemma carries_roquevaire : carries roquevaire runoffRoquevaire karstRoquevaire.
Proof.
  apply Forall_forall. intros d Hd.
  apply SIMULATION_DATA_In in Hd as [k [_ ->]]. reflexivity.
Qed.

Lemma carries_aubagne : carries aubagne runoffAubagne karstAubagne.
Proof.
  apply Forall_forall. intros d Hd.
  apply SIMULATION_DATA_In in Hd as [k [_ ->]]. reflexivity.
Qed.

Lemma carries_marseille : carries marseille runoffMarseille karstMarseille.
Proof.
  apply Forall_forall. intros d Hd.
  apply SIMULATION_DATA_In in Hd as [k [_ ->]]. reflexivity.
Qed.

Lemma peaks_in_series_of (f : R -> R) (p a : R) :
  peaks_at f p a -> sampled_at p -> peaks_in_series f p a.
Proof.
  intros [Hp Hmax] [d [Hd Ht]]. split.
  - exists d. repeat split; [exact Hd | exact Ht | rewrite Ht; exact Hp].
  - intros e _ Hne. apply Hmax, Hne.
Qed.

End SeriesCarriesPulses.

Section Waves.
Local Open Scope R_scope.

Ltac later_by Hf Hg :=
  do 4 eexists; split; [exact Hf | split; [exact Hg | lra]].

(** The runoff pulses, ordered by peak time and amplitude. *)
Lemma runoff_peak_order :
  (peaks_at runoffMarseille 6 0.4 /\ sampled_at 6) /\
  (peaks_at runoffAubagne 7 0.5 /\ sampled_at 7) /\
  (peaks_at runoffRoquevaire 8 0.6 /\ sampled_at 8) /\
  (peaks_at runoffStZacharie 9 0.1 /\ sampled_at 9) /\
  peaks_later runoffMarseille runoffAubagne /\
  peaks_later runoffAubagne runoffRoquevaire /\
  peaks_later runoffRoquevaire runoffStZacharie /\
  peaks_later runoffMarseille runoffStZacharie /\
  peaks_later runoffAubagne runoffStZacharie /\
  peaks_lower runoffStZacharie runoffMarseille /\
  peaks_lower runoffStZacharie runoffAubagne /\
  peaks_lower runoffStZacharie runoffRoquevaire.
Proof.
  pose proof runoffMarseille_peak as HM.
  pose proof runoffAubagne_peak as HA.
  pose proof runoffRoquevaire_peak as HR.
  pose proof runoffStZacharie_peak as HS.
  repeat split; try apply HM; try apply HA; try apply HR; try apply HS.
  - apply (sampled_at_index 12); [unfold sampleCount; lia | simpl; lra].
  - apply (sampled_at_index 14); [unfold sampleCount; lia | simpl; lra].
  - apply (sampled_at_index 16); [unfold sampleCount; lia | simpl; lra].
  - apply (sampled_at_index 18); [unfold sampleCount; lia | simpl; lra].
  - later_by HM HA.
  - later_by HA HR.
  - later_by HR HS.
  - later_by HM HS.
  - later_by HA HS.
  - later_by HS HM.
  - later_by HS HA.
  - later_by HS HR.
Qed.

(** C6.  The runoff pulse peaks at 6h at Marseille, the most-downstream
    station, and strictly later at each station upstream of it (Aubagne
    7h, Roquevaire 8h, St Zacharie 9h), each peak being a sample time of
    the series; St Zacharie, the most-upstream station, peaks after the
    three others and has a strictly smaller amplitude than each of them.
    The readings of the series carry these pulses: in every sample each
    station's reading is the base flow plus its runoff pulse plus its
    karst pulse at the time of the sample, and among the samples each
    runoff pulse is highest, at its amplitude, in the sample of its peak
    time and strictly lower in all others. *)
Theorem runoff_wave_moves_upstream :
  (peaks_at runoffMarseille 6 0.4 /\ sampled_at 6) /\
  (peaks_at runoffAubagne 7 0.5 /\ sampled_at 7) /\
  (peaks_at runoffRoquevaire 8 0.6 /\ sampled_at 8) /\
  (peaks_at runoffStZacharie 9 0.1 /\ sampled_at 9) /\
  peaks_later runoffMarseille runoffAubagne /\
  peaks_later runoffAubagne runoffRoquevaire /\
  peaks_later runoffRoquevaire runoffStZacharie /\
  peaks_later runoffMarseille runoffStZacharie /\
  peaks_later runoffAubagne runoffStZacharie /\
  peaks_lower runoffStZacharie runoffMarseille /\
  peaks_lower runoffStZacharie runoffAubagne /\
  peaks_lower runoffStZacharie runoffRoquevaire /\
  (carries marseille runoffMarseille karstMarseille /\
   carries aubagne runoffAubagne karstAubagne /\
   carries roquevaire runoffRoquevaire karstRoquevaire /\
   carries stZacharie runoffStZacharie karstStZacharie) /\
  (peaks_in_series runoffMarseille 6 0.4 /\
   peaks_in_series runoffAubagne 7 0.5 /\
   peaks_in_series runoffRoquevaire 8 0.6 /\
   peaks_in_series runoffStZacharie 9 0.1).
Proof.
  destruct runoff_peak_order as (H1 & H2 & H3 & H4 & H5 & H6 & H7 & H8 & H9 & H10 & H11 & H12).
  split; [exact H1|].
  split; [exact H2|].
  split; [exact H3|].
  split; [exact H4|].
  split; [exact H5|].
  split; [exact H6|].
  split; [exact H7|].
  split; [exact H8|].
  split; [exact H9|].
  split; [exact H10|].
  split; [exact H11|].
  split; [exact H12|].
  split.
  - split; [apply carries_marseille|]. split; [apply carries_aubagne|].
    split; [apply carries_roquevaire | apply carries_stZacharie].
  - split; [apply peaks_in_series_of; [exact runoffMarseille_peak | exact (proj2 H1)]|].
    split; [apply peaks_in_series_of; [exact runoffAubagne_peak | exact (proj2 H2)]|].
    split; [apply peaks_in_series_of; [exact runoffRoquevaire_peak | exact (proj2 H3)]|].
    apply peaks_in_series_of; [exact runoffStZacharie_peak | exact (proj2 H4)].
Qed.

(** C2, as the specification states it, fails at the first step
    downstream: the karst pulse of Roquevaire (amplitude 1.3) is not
    lower than that of St Zacharie (amplitude 1.2), the station
    immediately upstream of it. *)
Lemma karst_roquevaire_not_attenuated :
  peaks_at karstStZacharie 16 1.2 /\
  peaks_at karstRoquevaire 17.5 1.3 /\
  ~ peaks_lower karstRoquevaire karstStZacharie.
Proof.
  split; [exact karstStZacharie_peak|].
  split; [exact karstRoquevaire_peak|].
  intros (pR & aR & pS & aS & HR & HS & Hlt).
  destruct (peaks_at_unique _ _ _ _ _ HR karstRoquevaire_peak) as [_ ->].
  destruct (peaks_at_unique _ _ _ _ _ HS karstStZacharie_peak) as [_ ->].
  lra.
Qed.

(** The karst pulses, ordered by peak time and amplitude. *)
Lemma karst_peak_order :
  (peaks_at karstStZacharie 16 1.2 /\ sampled_at 16) /\
  (peaks_at karstRoquevaire 17.5 1.3 /\ sampled_at 17.5) /\
  (peaks_at karstAubagne 19 0.9 /\ sampled_at 19) /\
  (peaks_at karstMarseille 21 0.4 /\ sampled_at 21) /\
  peaks_later karstStZacharie karstRoquevaire /\
  peaks_later karstRoquevaire karstAubagne /\
  peaks_later karstAubagne karstMarseille /\
  peaks_lower karstAubagne karstRoquevaire /\
  peaks_lower karstMarseille karstAubagne /\
  peaks_lower karstStZacharie karstRoquevaire.
Proof.
  pose proof karstStZacharie_peak as HS.
  pose proof karstRoquevaire_peak as HR.
  pose proof karstAubagne_peak as HA.
  pose proof karstMarseille_peak as HM.
  repeat split; try apply HM; try apply HA; try apply HR; try apply HS.
  - apply (sampled_at_index 32); [unfold sampleCount; lia | simpl; lra].
  - apply (sampled_at_index 35); [unfold sampleCount; lia | simpl; lra].
  - apply (sampled_at_index 38); [unfold sampleCount; lia | simpl; lra].
  - apply (sampled_at_index 42); [unfold sampleCount; lia | simpl; lra].
  - later_by HS HR.
  - later_by HR HA.
  - later_by HA HM.
  - later_by HA HR.
  - later_by HM HA.
  - later_by HS HR.
Qed.

(** C2, amended.  The karst pulse peaks at 16h at St Zacharie, the
    most-upstream station, and strictly later at each station downstream
    of it (Roquevaire 17.5h, Aubagne 19h, Marseille 21h), each peak being
    a sample time of the series.  The amplitude decreases strictly from
    Roquevaire to Aubagne to Marseille, while Roquevaire's amplitude (1.3)
    is strictly larger than St Zacharie's (1.2).  The readings of the
    series carry these pulses: in every sample each station's reading is
    the base flow plus its runoff pulse plus its karst pulse at the time
    of the sample, and among the samples each karst pulse is highest, at
    its amplitude, in the sample of its peak time and strictly lower in
    all others. *)
Theorem karst_wave_moves_downstream :
  (peaks_at karstStZacharie 16 1.2 /\ sampled_at 16) /\
  (peaks_at karstRoquevaire 17.5 1.3 /\ sampled_at 17.5) /\
  (peaks_at karstAubagne 19 0.9 /\ sampled_at 19) /\
  (peaks_at karstMarseille 21 0.4 /\ sampled_at 21) /\
  peaks_later karstStZacharie karstRoquevaire /\
  peaks_later karstRoquevaire karstAubagne /\
  peaks_later karstAubagne karstMarseille /\
  peaks_lower karstAubagne karstRoquevaire /\
  peaks_lower karstMarseille karstAubagne /\
  peaks_lower karstStZacharie karstRoquevaire /\
  (carries stZacharie runoffStZacharie karstStZacharie /\
   carries roquevaire runoffRoquevaire karstRoquevaire /\
   carries aubagne runoffAubagne karstAubagne /\
   carries marseille runoffMarseille karstMarseille) /\
  (peaks_in_series karstStZacharie 16 1.2 /\
   peaks_in_series karstRoquevaire 17.5 1.3 /\
   peaks_in_series karstAubagne 19 0.9 /\
   peaks_in_series karstMarseille 21 0.4).
Proof.
  destruct karst_peak_order as (H1 & H2 & H3 & H4 & H5 & H6 & H7 & H8 & H9 & H10).
  split; [exact H1|].
  split; [exact H2|].
  split; [exact H3|].
  split; [exact H4|].
  split; [exact H5|].
  split; [exact H6|].
  split; [exact H7|].
  split; [exact H8|].
  split; [exact H9|].
  split; [exact H10|].
  split.
  - split; [apply carries_stZacharie|]. split; [apply carries_roquevaire|].
    split; [apply carries_aubagne | apply carries_marseille].
  - split; [apply peaks_in_series_of; [exact karstStZacharie_peak | exact (proj2 H1)]|].
    split; [apply peaks_in_series_of; [exact karstRoquevaire_peak | exact (proj2 H2)]|].
    split; [apply peaks_in_series_of; [exact karstAubagne_peak | exact (proj2 H3)]|].
    apply peaks_in_series_of; [exact karstMarseille_peak | exact (proj2 H4)].
Qed.

Lemma levels_above_base (t : R) :
  base <= hStZacharie t /\ base <= hRoquevaire t /\
  base <= hAubagne t /\ base <= hMarseille t.
Proof.
  unfold hStZacharie, hRoquevaire, hAubagne, hMarseille.
  pose proof (gaussian_pos 0.1 9 8 t) as H1.
  pose proof (gaussian_pos 1.2 16 15 t) as H2.
  pose proof (gaussian_pos 0.6 8 8 t) as H3.
  pose proof (gaussian_pos 1.3 17.5 18 t) as H4.
  pose proof (gaussian_pos 0.5 7 8 t) as H5.
  pose proof (gaussian_pos 0.9 19 20 t) as H6.
  pose proof (gaussian_pos 0.4 6 8 t) as H7.
  pose proof (gaussian_pos 0.4 21 25 t) as H8.
  fold (runoffStZacharie t) in H1. fold (karstStZacharie t) in H2.
  fold (runoffRoquevaire t) in H3. fold (karstRoquevaire t) in H4.
  fold (runoffAubagne t) in H5. fold (karstAubagne t) in H6.
  fold (runoffMarseille t) in H7. fold (karstMarseille t) in H8.
  repeat split; lra.
Qed.

(** C7.  The base floor is 0.3, and in every sample of the generated
    series each of the four station readings is at least that floor. *)
Theorem readings_above_base :
  base = 0.3 /\
  Forall (fun d => base <= stZacharie d /\ base <= roquevaire d /\
                   base <= aubagne d /\ base <= marseille d)
         SIMULATION_DATA.
Proof.
  split; [reflexivity|].
  apply Forall_forall. intros d Hd.
  apply SIMULATION_DATA_In in Hd as [k [_ ->]].
  cbn [stZacharie roquevaire aubagne marseille dataPoint].
  apply levels_above_base.
Qed.

End Waves.

(** ** The timeline driver *)

Section Timeline.
Local Open Scope Q_scope.

(** *** Seeking *)

(** C1, as the specification states it, fails outside the range: a seek
    to 100 leaves [currentTime] at 100 where the clamp gives 48, and a
    seek to -3 leaves it at -3 where the clamp gives 0. *)
Lemma handleSeek_does_not_clamp :
  (currentTime (handleSeek 100 initialState) = 100 /\
   clamp 100 0 MAX_TIME = MAX_TIME /\
   ~ currentTime (handleSeek 100 initialState) == clamp 100 0 MAX_TIME) /\
  (currentTime (handleSeek (-3) initialState) = -3 /\
   clamp (-3) 0 MAX_TIME = 0 /\
   ~ currentTime (handleSeek (-3) initialState) == clamp (-3) 0 MAX_TIME).
Proof. repeat split; discriminate. Qed.

Lemma clamp_in_range (t lo hi : Q) :
  lo <= hi -> (clamp t lo hi == t <-> lo <= t <= hi).
Proof.
  intros Hlh. unfold clamp.
  destruct (Qlt_le_dec t lo) as [Hlo | Hlo];
    [|destruct (Qlt_le_dec hi t) as [Hhi | Hhi]]; split.
  - intros H. rewrite H in Hlo. exfalso. exact (Qlt_irrefl _ Hlo).
  - intros [H _]. exfalso. exact (Qlt_not_le _ _ Hlo H).
  - intros H. rewrite H in Hhi. exfalso. exact (Qlt_irrefl _ Hhi).
  - intros [_ H]. exfalso. exact (Qlt_not_le _ _ Hhi H).
  - intros _. split; assumption.
  - intros _. reflexivity.
Qed.

(** C1, amended.  A seek stores its argument as it is, for every [t] and
    in every state; the stored value is [clamp t 0 MAX_TIME] exactly when
    [t] lies in [[0, MAX_TIME]], the range of the slider that calls it. *)
Theorem handleSeek_sets_time (s : AppState) (t : Q) :
  currentTime (handleSeek t s) = t /\
  (currentTime (handleSeek t s) == clamp t 0 MAX_TIME <-> 0 <= t <= MAX_TIME).
Proof.
  split; [reflexivity|].
  cbn [handleSeek setCurrentTime currentTime].
  rewrite <- (clamp_in_range t 0 MAX_TIME) by discriminate.
  split; intros H; symmetry; exact H.
Qed.

(** C10.  A seek leaves [isPlaying] and [playbackSpeed] as they were, in
    every state (playing or paused) and for every target time; the two
    refs are untouched as well. *)
Theorem handleSeek_frame (s : AppState) (t : Q) :
  isPlaying (handleSeek t s) = isPlaying s /\
  playbackSpeed (handleSeek t s) = playbackSpeed s /\
  lastTimeRef (handleSeek t s) = lastTimeRef s /\
  requestRef (handleSeek t s) = requestRef s.
Proof. repeat split. Qed.

(** *** Cycling the speed *)

Lemma handleSpeedChange_speed (s : AppState) :
  playbackSpeed (handleSpeedChange s) =
  if Qle_bool 4 (playbackSpeed s) then 1 else playbackSpeed s * 2.
Proof. reflexivity. Qed.

Lemma speed_below_4 (q : Q) : q < 4 -> Qle_bool 4 q = false.
Proof.
  intros H. apply not_true_iff_false. rewrite Qle_bool_iff.
  apply Qlt_not_le, H.
Qed.

Lemma speed_from_4 (q : Q) : 4 <= q -> Qle_bool 4 q = true.
Proof. apply Qle_bool_iff. Qed.

Lemma handleSpeedChange_1 (s : AppState) :
  playbackSpeed s == 1 -> playbackSpeed (handleSpeedChange s) == 2.
Proof.
  intros H. rewrite handleSpeedChange_speed, speed_below_4.
  - rewrite H. reflexivity.
  - rewrite H. reflexivity.
Qed.

Lemma handleSpeedChange_2 (s : AppState) :
  playbackSpeed s == 2 -> playbackSpeed (handleSpeedChange s) == 4.
Proof.
  intros H. rewrite handleSpeedChange_speed, speed_below_4.
  - rewrite H. reflexivity.
  - rewrite H. reflexivity.
Qed.

Lemma handleSpeedChange_4 (s : AppState) :
  playbackSpeed s == 4 -> playbackSpeed (handleSpeedChange s) == 1.
Proof.
  intros H. rewrite handleSpeedChange_speed, speed_from_4.
  - reflexivity.
  - rewrite H. discriminate.
Qed.

(** C8.  From a speed of the cycle, [handleSpeedChange] goes 1 to 2, 2 to
    4 and 4 to 1: the set of the three speeds is closed, one or two
    applications never give the speed back and three always do.  From
    the initial speed 1 the three successive speeds are 2, 4 and 1. *)
Theorem handleSpeedChange_cycle (s : AppState) :
  cycleSpeed (playbackSpeed s) ->
  (playbackSpeed s == 1 -> playbackSpeed (handleSpeedChange s) == 2) /\
  (playbackSpeed s == 2 -> playbackSpeed (handleSpeedChange s) == 4) /\
  (playbackSpeed s == 4 -> playbackSpeed (handleSpeedChange s) == 1) /\
  cycleSpeed (playbackSpeed (handleSpeedChange s)) /\
  ~ playbackSpeed (handleSpeedChange s) == playbackSpeed s /\
  ~ playbackSpeed (handleSpeedChange (handleSpeedChange s)) == playbackSpeed s /\
  playbackSpeed (handleSpeedChange (handleSpeedChange (handleSpeedChange s)))
    == playbackSpeed s /\
  (playbackSpeed s = 1 ->
   playbackSpeed (handleSpeedChange s) = 2 /\
   playbackSpeed (handleSpeedChange (handleSpeedChange s)) = 4 /\
   playbackSpeed (handleSpeedChange (handleSpeedChange (handleSpeedChange s))) = 1).
Proof.
  intros Hs.
  split; [apply handleSpeedChange_1|].
  split; [apply handleSpeedChange_2|].
  split; [apply handleSpeedChange_4|].
  assert (H3 : forall s', cycleSpeed (playbackSpeed s') ->
                          cycleSpeed (playbackSpeed (handleSpeedChange s'))).
  { intros s' [H | [H | H]]; unfold cycleSpeed.
    - right; left. apply handleSpeedChange_1, H.
    - right; right. apply handleSpeedChange_2, H.
    - left. apply handleSpeedChange_4, H. }
  split; [apply H3, Hs|].
  repeat split.
  - destruct Hs as [H | [H | H]]; intros E.
    + rewrite (handleSpeedChange_1 s H), H in E. discriminate.
    + rewrite (handleSpeedChange_2 s H), H in E. discriminate.
    + rewrite (handleSpeedChange_4 s H), H in E. discriminate.
  - destruct Hs as [H | [H | H]]; intros E.
    + rewrite (handleSpeedChange_2 _ (handleSpeedChange_1 s H)), H in E. discriminate.
    + rewrite (handleSpeedChange_4 _ (handleSpeedChange_2 s H)), H in E. discriminate.
    + rewrite (handleSpeedChange_1 _ (handleSpeedChange_4 s H)), H in E. discriminate.
  - destruct Hs as [H | [H | H]].
    + rewrite (handleSpeedChange_4 _ (handleSpeedChange_2 _ (handleSpeedChange_1 s H))), H.
      reflexivity.
    + rewrite (handleSpeedChange_1 _ (handleSpeedChange_4 _ (handleSpeedChange_2 s H))), H.
      reflexivity.
    + rewrite (handleSpeedChange_2 _ (handleSpeedChange_1 _ (handleSpeedChange_4 s H))), H.
      reflexivity.
  - rewrite !handleSpeedChange_speed, H. reflexivity.
  - rewrite !handleSpeedChange_speed, H. reflexivity.
  - rewrite !handleSpeedChange_speed, H. reflexivity.
Qed.

Lemma handleSpeedChange_cycle_initial :
  cycleSpeed (playbackSpeed initialState) /\
  playbackSpeed (handleSpeedChange initialState) = 2 /\
  playbackSpeed (handleSpeedChange (handleSpeedChange initialState)) = 4 /\
  playbackSpeed
    (handleSpeedChange (handleSpeedChange (handleSpeedChange initialState))) = 1.
Proof.
  assert (H : cycleSpeed (playbackSpeed initialState)) by (left; reflexivity).
  split; [exact H|].
  destruct (handleSpeedChange_cycle initialState H)
    as (_ & _ & _ & _ & _ & _ & _ & Hinit).
  exact (Hinit eq_refl).
Defined.

End Timeline.

(** *** Advancing frame by frame *)

Section Advance.
Local Open Scope Q_scope.

Lemma animate_at_end (s : AppState) (prev time : Q) :
  lastTimeRef s = Some prev ->
  MAX_TIME <= nextTime s prev time ->
  currentTime (animate time s) = MAX_TIME /\ isPlaying (animate time s) = false.
Proof.
  intros Hlast Hnext. apply Qle_bool_iff in Hnext.
  unfold animate, advance. rewrite Hlast.
  unfold nextTime in Hnext. rewrite Hnext.
  destruct (isPlaying s); split; reflexivity.
Qed.

Lemma animate_before_end (s : AppState) (prev time : Q) :
  lastTimeRef s = Some prev ->
  nextTime s prev time < MAX_TIME ->
  currentTime (animate time s) = nextTime s prev time /\
  isPlaying (animate time s) = isPlaying s.
Proof.
  intros Hlast Hnext.
  assert (Hb : Qle_bool MAX_TIME (nextTime s prev time) = false).
  { apply not_true_iff_false. rewrite Qle_bool_iff. apply Qlt_not_le, Hnext. }
  unfold animate, advance. rewrite Hlast.
  unfold nextTime in Hb. rewrite Hb. unfold nextTime.
  destruct (isPlaying s) eqn:Hp; split; try reflexivity;
    cbn [isPlaying setRequestRef setLastTimeRef setCurrentTime]; exact Hp.
Qed.

Lemma animate_playbackSpeed (s : AppState) (time : Q) :
  playbackSpeed (animate time s) = playbackSpeed s.
Proof.
  unfold animate, advance.
  destruct (lastTimeRef s); [destruct (Qle_bool _ _)|];
    destruct (isPlaying s); reflexivity.
Qed.

Lemma animate_lastTimeRef (s : AppState) (time : Q) :
  lastTimeRef (animate time s) = Some time.
Proof. unfold animate. destruct (isPlaying s); reflexivity. Qed.

(** The first frame after playback starts has no previous timestamp: it
    records its own and leaves the time alone. *)
Lemma animate_first_frame (s : AppState) (time : Q) :
  lastTimeRef s = None ->
  currentTime (animate time s) = currentTime s /\
  isPlaying (animate time s) = isPlaying s.
Proof.
  intros H. unfold animate. rewrite H.
  destruct (isPlaying s) eqn:Hp; split; try reflexivity;
    cbn [isPlaying setRequestRef setLastTimeRef]; exact Hp.
Qed.

(** A non-negative delta at a non-negative speed adds a non-negative
    amount. *)
Lemma step_nonneg (speed prev time : Q) :
  0 <= speed -> prev <= time -> 0 <= (time - prev) / 1000 * 2 * speed.
Proof.
  intros Hs Ht.
  apply Qmult_le_0_compat; [|exact Hs].
  apply Qmult_le_0_compat; [|discriminate].
  apply Qmult_le_0_compat; [|discriminate].
  unfold Qminus. rewrite <- Qle_minus_iff. exact Ht.
Qed.

Lemma last_nonempty {A : Type} (l : list A) :
  forall a d d', List.last (a :: l) d = List.last (a :: l) d'.
Proof.
  induction l as [|b l IH]; intros a d d'; [reflexivity|].
  change (List.last (b :: l) d = List.last (b :: l) d'). apply IH.
Qed.

(** Once at the end and paused, later frames change neither. *)
Lemma frames_stay_at_end (times : list Q) :
  forall (s : AppState) (prev : Q),
    lastTimeRef s = Some prev -> 0 <= playbackSpeed s ->
    nondecreasing prev times ->
    currentTime s = MAX_TIME -> isPlaying s = false ->
    currentTime (frames times s) = MAX_TIME /\
    isPlaying (frames times s) = false.
Proof.
  induction times as [|time rest IH]; intros s prev Hlast Hspeed Hmono Hcur Hplay.
  - split; assumption.
  - destruct Hmono as [Hle Hmono]. cbn [frames].
    assert (Hnext : MAX_TIME <= nextTime s prev time).
    { unfold nextTime. rewrite Hcur.
      rewrite <- (Qplus_0_r MAX_TIME) at 1.
      apply Qplus_le_compat; [apply Qle_refl | apply step_nonneg; assumption]. }
    destruct (animate_at_end s prev time Hlast Hnext) as [Hc Hp].
    apply (IH (animate time s) time); auto.
    + apply animate_lastTimeRef.
    + rewrite animate_playbackSpeed. exact Hspeed.
Qed.












End Advance.

Section AdvanceClaim.
Local Open Scope Q_scope.

Example nearEnd_one_frame :
  currentTime (animate 100 nearEnd) == 478 # 10 /\
  isPlaying (animate 100 nearEnd) = true.
Proof. split; reflexivity. Qed.

Example nearEnd_two_frames :
  currentTime (frames [100; 200] nearEnd) = MAX_TIME /\
  isPlaying (frames [100; 200] nearEnd) = false.
Proof. split; reflexivity. Qed.



End AdvanceClaim.

(** ** Labels *)

Section Labels.
Local Open Scope Q_scope.

#[local] Instance trunc_Qeq : Proper (Qeq ==> eq) JS.trunc.
Proof.
  intros q q' H. unfold JS.trunc.
  rewrite (Qfloor_comp q q' H), (Qceiling_comp q q' H), H. reflexivity.
Qed.

#[local] Instance rem_Qeq : Proper (Qeq ==> Qeq ==> Qeq) JS.rem.
Proof.
  intros a a' Ha b b' Hb. unfold JS.rem.
  assert (E : JS.trunc (a / b) = JS.trunc (a' / b'))
    by (apply trunc_Qeq; rewrite Ha, Hb; reflexivity).
  rewrite E, Ha, Hb. reflexivity.
Qed.

(** The label is a function of the time as a number, whatever fraction
    denotes it. *)
Lemma mkLabel_Qeq (t t' : Q) : t == t' -> mkLabel t = mkLabel t'.
Proof.
  intros H. unfold mkLabel, day, hour, min, JS.floor.
  rewrite H. reflexivity.
Qed.

Lemma labelCheck_all : forallb labelCheck (map Z.of_nat (seq 0 sampleCount)) = true.
Proof. vm_compute. reflexivity. Qed.

Lemma labelCheck_sample (k : nat) :
  (k < sampleCount)%nat -> labelCheck (Z.of_nat k) = true.
Proof.
  intros Hk. pose proof labelCheck_all as H.
  rewrite forallb_forall in H. apply H.
  apply in_map, in_seq. lia.
Qed.

Lemma labelSpecCheck_all :
  forallb labelSpecCheck (map Z.of_nat (seq 0 sampleCount)) = true.
Proof. vm_compute. reflexivity. Qed.

Lemma labelSpec_sample (k : nat) :
  (k < sampleCount)%nat ->
  mkLabel (sampleTime (Z.of_nat k)) = labelSpec (sampleTime (Z.of_nat k)).
Proof.
  intros Hk. pose proof labelSpecCheck_all as H.
  rewrite forallb_forall in H. apply String.eqb_eq, H.
  apply in_map, in_seq. lia.
Qed.

Example label_first : label (dataPoint 0) = "09-02 00:00"%string.
Proof. vm_compute. reflexivity. Qed.

Example label_half_past : label (dataPoint 33) = "09-02 16:30"%string.
Proof. vm_compute. reflexivity. Qed.

Example label_next_day : label (dataPoint 49) = "10-02 00:30"%string.
Proof. vm_compute. reflexivity. Qed.

Example label_last : label (dataPoint 96) = "11-02 00:00"%string.
Proof. vm_compute. reflexivity. Qed.

(** C9.  The label of a sample of the series is computed from its time
    [t] alone: it is the day [floor (t / 24) + 9], a dash, the month
    [02], a space, the hour [floor (t % 24)], a colon and the minute
    [floor ((t % 1) * 60)], each number padded to two digits, so that
    the label has the shape [DD-MM HH:MM]; [t % 24] and [t % 1] are the
    remainders of the floored division, the latter being the fractional
    part of [t]; and samples of equal time have equal labels.  The
    characters are those of [labelSpec]: the tens digit then the units
    digit of the day, a dash, [02], a space, the two digits of the hour,
    a colon and the two digits of the minute. *)
Theorem label_determined_by_time (d : HydroDataPoint) :
  In d SIMULATION_DATA ->
  let t := time d in
  label d = mkLabel t /\
  label d = (pad2 (Qfloor (t / 24) + 9) ++ "-02 " ++
             pad2 (Qfloor (JS.rem t 24)) ++ ":" ++
             pad2 (Qfloor (JS.rem t 1 * 60)))%string /\
  is_DD_MM_HH_MM (label d) = true /\
  JS.rem t 24 == t - 24 * inject_Z (Qfloor (t / 24)) /\
  JS.rem t 1 == t - inject_Z (Qfloor t) /\
  (0 <= hour t < 24)%Z /\ (0 <= min t < 60)%Z /\
  (forall e, In e SIMULATION_DATA -> time e == t -> label e = label d) /\
  (forall t', t' == t -> mkLabel t' = label d) /\
  label d = labelSpec t.
Proof.
  intros Hd t. subst t.
  apply SIMULATION_DATA_In in Hd as [k [Hk ->]].
  pose proof (labelSpec_sample k Hk) as Hspec.
  pose proof (labelCheck_sample k Hk) as Hc.
  unfold labelCheck in Hc. cbv zeta in Hc.
  repeat (apply andb_prop in Hc; destruct Hc as [Hc ?]).
  cbn [time label dataPoint].
  repeat match goal with
         | H : Qeq_bool _ _ = true |- _ => apply Qeq_bool_iff in H
         | H : (_ <=? _)%Z = true |- _ => apply Z.leb_le in H
         | H : (_ <? _)%Z = true |- _ => apply Z.ltb_lt in H
         end.
  repeat split; auto.
  - intros e He Heq. apply SIMULATION_DATA_In in He as [j [Hj ->]].
    cbn [time label dataPoint] in *. apply mkLabel_Qeq, Heq.
  - intros t' Heq. apply mkLabel_Qeq, Heq.
Qed.

Lemma label_determined_by_time_at_16_30 :
  In (dataPoint 33) SIMULATION_DATA /\
  label (dataPoint 33) = mkLabel (time (dataPoint 33)) /\
  is_DD_MM_HH_MM (label (dataPoint 33)) = true /\
  label (dataPoint 33) = "09-02 16:30"%string.
Proof.
  assert (H : In (dataPoint 33) SIMULATION_DATA).
  { apply SIMULATION_DATA_In. exists 33%nat.
    split; [unfold sampleCount; lia | reflexivity]. }
  split; [exact H|].
  pose proof (label_determined_by_time (dataPoint 33) H) as T.
  cbv zeta in T.
  destruct T as (T1 & _ & T3 & _ & _ & _ & _ & _ & _ & T10).
  split; [exact T1|]. split; [exact T3|].
  exact (eq_trans T10 (eq_refl : labelSpec (time (dataPoint 33))
                                 = "09-02 16:30"%string)).
Defined.

End Labels.

(** ** The component between events *)

Section EventLoop.
Local Open Scope Q_scope.

Lemma Qlt_bool_iff (a b : Q) : Qlt_bool a b = true <-> a < b.
Proof.
  unfold Qlt_bool. rewrite negb_true_iff, <- not_true_iff_false, Qle_bool_iff.
  split; [apply Qnot_le_lt | apply Qlt_not_le].
Qed.

Lemma Qlt_bool_false (a b : Q) : Qlt_bool a b = false <-> b <= a.
Proof. unfold Qlt_bool. rewrite negb_false_iff. apply Qle_bool_iff. Qed.

Lemma Qeq_bool_same (q : Q) : Qeq_bool q q = true.
Proof. apply Qeq_bool_iff. reflexivity. Qed.

Lemma cycleSpeed_nonneg (q : Q) : cycleSpeed q -> 0 <= q.
Proof. intros [H | [H | H]]; rewrite H; discriminate. Qed.

Lemma cycleSpeed_next (s : AppState) :
  cycleSpeed (playbackSpeed s) ->
  cycleSpeed (playbackSpeed (handleSpeedChange s)).
Proof.
  intros [H | [H | H]]; unfold cycleSpeed.
  - right; left. apply handleSpeedChange_1, H.
  - right; right. apply handleSpeedChange_2, H.
  - left. apply handleSpeedChange_4, H.
Qed.

Lemma animate_requestRef (s : AppState) (time : Q) :
  isPlaying s = true -> requestRef (animate time s) = true.
Proof. intros H. unfold animate. rewrite H. reflexivity. Qed.

Lemma effect_wellFormed (s : AppState) :
  0 <= currentTime s <= MAX_TIME -> cycleSpeed (playbackSpeed s) ->
  wellFormed (effect s).
Proof.
  intros Ht Hs. unfold effect, wellFormed.
  destruct (isPlaying s) eqn:Hp;
    cbn [currentTime isPlaying playbackSpeed lastTimeRef requestRef
         setRequestRef setLastTimeRef]; rewrite ?Hp; repeat split;
    try apply Ht; try exact Hs; intros; try discriminate; reflexivity.
Qed.

(** A render keeps the state well formed as soon as the callback left
    the time in range and the speed in the cycle, and left the refs
    consistent in case it did not touch [isPlaying]. *)
Lemma rerender_wellFormed (before after : AppState) :
  0 <= currentTime after <= MAX_TIME ->
  cycleSpeed (playbackSpeed after) ->
  (isPlaying after = isPlaying before ->
   requestRef after = isPlaying after /\
   (isPlaying after = false -> lastTimeRef after = None)) ->
  wellFormed (rerender before after).
Proof.
  intros Ht Hs Hrefs. unfold rerender.
  destruct (Bool.eqb (isPlaying before) (isPlaying after)) eqn:Hp;
    [destruct (Qeq_bool (playbackSpeed before) (playbackSpeed after))|];
    cbn [andb]; try (apply effect_wellFormed; assumption).
  apply eqb_prop in Hp. symmetry in Hp. destruct (Hrefs Hp) as [Hr Hl].
  repeat split; try apply Ht; assumption.
Qed.

Lemma dispatch_wellFormed (e : Event) (s : AppState) :
  wellFormed s -> admissible e s -> wellFormed (dispatch e s).
Proof.
  intros (Ht & Hs & Hr & Hl) Hadm. unfold dispatch.
  destruct e as [| | |t|time]; cbn [handle admissible] in *.
  - apply rerender_wellFormed; [exact Ht | exact Hs|].
    cbn [togglePlay setIsPlaying isPlaying]. intros H.
    destruct (isPlaying s); discriminate.
  - apply rerender_wellFormed; [split; discriminate | exact Hs|].
    cbn [handleReset setCurrentTime setIsPlaying isPlaying requestRef lastTimeRef].
    intros H. split; [congruence | intros _; apply Hl; congruence].
  - apply rerender_wellFormed; [exact Ht | apply cycleSpeed_next, Hs|].
    intros _. split; assumption.
  - apply rerender_wellFormed; [exact Hadm | exact Hs|].
    intros _. split; assumption.
  - destruct (requestRef s) eqn:Hreq.
    + assert (Hp : isPlaying s = true) by congruence.
      pose proof (animate_requestRef s time Hp) as Hreq'.
      pose proof (animate_playbackSpeed s time) as Hspeed.
      destruct (lastTimeRef s) as [prev|] eqn:Hlast.
      * destruct (Qlt_le_dec (nextTime s prev time) MAX_TIME) as [Hlt | Hge].
        -- destruct (animate_before_end s prev time Hlast Hlt) as [Hc Hp'].
           apply rerender_wellFormed.
           ++ rewrite Hc. split; [|apply Qlt_le_weak, Hlt].
              unfold nextTime. rewrite <- (Qplus_0_r 0).
              apply Qplus_le_compat; [apply Ht|].
              apply step_nonneg; [apply cycleSpeed_nonneg, Hs | exact Hadm].
           ++ rewrite Hspeed. exact Hs.
           ++ intros _. rewrite Hp', Hp. split; [exact Hreq' | discriminate].
        -- destruct (animate_at_end s prev time Hlast Hge) as [Hc Hp'].
           apply rerender_wellFormed.
           ++ rewrite Hc. split; [discriminate | apply Qle_refl].
           ++ rewrite Hspeed. exact Hs.
           ++ intros H. rewrite Hp', Hp in H. discriminate.
      * destruct (animate_first_frame s time Hlast) as [Hc Hp'].
        apply rerender_wellFormed.
        -- rewrite Hc. exact Ht.
        -- rewrite Hspeed. exact Hs.
        -- intros _. rewrite Hp', Hp. split; [exact Hreq' | discriminate].
    + apply rerender_wellFormed; [exact Ht | exact Hs|].
      intros _. split; [congruence | exact Hl].
Qed.

Lemma initialState_wellFormed : wellFormed initialState.
Proof.
  repeat split; try discriminate. left. reflexivity.
Qed.

Lemma run_wellFormed_from (events : list Event) :
  forall s, wellFormed s -> admissibleRun events s -> wellFormed (run events s).
Proof.
  induction events as [|e rest IH]; intros s Hs Hadm; [exact Hs|].
  destruct Hadm as [He Hrest]. cbn [run].
  apply IH; [apply dispatch_wellFormed; assumption | exact Hrest].
Qed.

(** A frame callback that was cancelled does not run: in a well-formed
    paused state an animation frame changes nothing. *)
Lemma paused_frame_from (s : AppState) (time : Q) :
  wellFormed s -> isPlaying s = false -> dispatch (AnimationFrame time) s = s.
Proof.
  intros (_ & _ & Hr & _) Hp. unfold dispatch, rerender. cbn [handle].
  rewrite Hr, Hp. cbn [Bool.eqb andb]. rewrite Hp, Qeq_bool_same. reflexivity.
Qed.

End EventLoop.

Section Transport.
Local Open Scope Q_scope.

Ltac open_state s :=
  destruct s as [ct ip sp lt rr];
  cbn [currentTime isPlaying playbackSpeed lastTimeRef requestRef] in *;
  subst.

Ltac step_state :=
  unfold dispatch, rerender, handle, togglePlay, handleReset, effect, animate,
    advance, setRequestRef, setLastTimeRef, setIsPlaying, setCurrentTime;
  cbn [currentTime isPlaying playbackSpeed lastTimeRef requestRef
       negb Bool.eqb andb].

Lemma dispatch_pause (s : AppState) :
  isPlaying s = true ->
  dispatch ClickPlayPause s =
  {| currentTime := currentTime s; isPlaying := false;
     playbackSpeed := playbackSpeed s; lastTimeRef := None;
     requestRef := false |}.
Proof. intros Hp. open_state s. step_state. reflexivity. Qed.

Lemma dispatch_play (s : AppState) :
  isPlaying s = false -> lastTimeRef s = None ->
  dispatch ClickPlayPause s =
  {| currentTime := currentTime s; isPlaying := true;
     playbackSpeed := playbackSpeed s; lastTimeRef := None;
     requestRef := true |}.
Proof. intros Hp Hl. open_state s. step_state. reflexivity. Qed.

(** The first frame after playback starts: it only records its
    timestamp, and no effect runs. *)
Lemma first_frame (s : AppState) (time : Q) :
  requestRef s = true -> isPlaying s = true -> lastTimeRef s = None ->
  dispatch (AnimationFrame time) s =
  {| currentTime := currentTime s; isPlaying := true;
     playbackSpeed := playbackSpeed s; lastTimeRef := Some time;
     requestRef := true |}.
Proof.
  intros Hr Hp Hl. open_state s. step_state.
  rewrite Qeq_bool_same. reflexivity.
Qed.

(** A frame that reaches the end: the effect runs and clears the refs. *)
Lemma dispatch_frame_end (s : AppState) (prev time : Q) :
  requestRef s = true -> isPlaying s = true ->
  lastTimeRef s = Some prev -> MAX_TIME <= nextTime s prev time ->
  dispatch (AnimationFrame time) s =
  {| currentTime := MAX_TIME; isPlaying := false;
     playbackSpeed := playbackSpeed s; lastTimeRef := None;
     requestRef := false |}.
Proof.
  intros Hr Hp Hl Hnext. apply Qle_bool_iff in Hnext. unfold nextTime in Hnext.
  open_state s. step_state. rewrite Hnext.
  cbn [currentTime isPlaying playbackSpeed lastTimeRef requestRef
       negb Bool.eqb andb]. reflexivity.
Qed.

Lemma dispatch_reset (s : AppState) :
  wellFormed s ->
  dispatch ClickReset s =
  {| currentTime := 0; isPlaying := false;
     playbackSpeed := playbackSpeed s; lastTimeRef := None;
     requestRef := false |}.
Proof.
  intros (_ & _ & Hr & Hl). open_state s. step_state.
  destruct ip; cbn [Bool.eqb andb]; [reflexivity|].
  rewrite Qeq_bool_same, (Hl eq_refl). reflexivity.
Qed.

End Transport.

Section FrameRuns.
Local Open Scope Q_scope.

(** One frame in order, at a non-negative speed and from a time not
    after the end, moves the time forward or leaves it, and not past the
    end. *)
Lemma animate_forward (s : AppState) (prev time : Q) :
  lastTimeRef s = Some prev -> 0 <= playbackSpeed s -> prev <= time ->
  currentTime s <= MAX_TIME ->
  currentTime s <= currentTime (animate time s) <= MAX_TIME.
Proof.
  intros Hlast Hspeed Hle Hcur.
  destruct (Qlt_le_dec (nextTime s prev time) MAX_TIME) as [Hlt | Hge].
  - destruct (animate_before_end s prev time Hlast Hlt) as [-> _].
    split; [|apply Qlt_le_weak, Hlt].
    unfold nextTime. rewrite <- (Qplus_0_r (currentTime s)) at 1.
    apply Qplus_le_compat; [apply Qle_refl | apply step_nonneg; assumption].
  - destruct (animate_at_end s prev time Hlast Hge) as [-> _].
    split; [exact Hcur | apply Qle_refl].
Qed.

End FrameRuns.

(** ** The timeline: what the events keep and how they compose *)

Section TimelineExtras.
Local Open Scope Q_scope.

(** X1.  Whatever the user clicks and slides and however many frames the
    browser runs, starting from the mounted component: [currentTime]
    stays within [[0, MAX_TIME]], the speed stays one of 1, 2 and 4, a
    frame is pending exactly when the component is playing, and no
    previous timestamp is kept while it is paused.  The slider delivers
    values of its range and frame timestamps never go back. *)
Theorem run_keeps_wellFormed (events : list Event) :
  admissibleRun events initialState ->
  wellFormed (run events initialState).
Proof.
  apply run_wellFormed_from, initialState_wellFormed.
Qed.

Lemma run_keeps_wellFormed_session :
  admissibleRun
    [ClickPlayPause; AnimationFrame 0; AnimationFrame 1000; Slide 10;
     ClickSpeed; AnimationFrame 1500; ClickReset] initialState /\
  wellFormed
    (run [ClickPlayPause; AnimationFrame 0; AnimationFrame 1000; Slide 10;
          ClickSpeed; AnimationFrame 1500; ClickReset] initialState).
Proof.
  assert (H : admissibleRun
                [ClickPlayPause; AnimationFrame 0; AnimationFrame 1000; Slide 10;
                 ClickSpeed; AnimationFrame 1500; ClickReset] initialState).
  { vm_compute. repeat split; discriminate. }
  split; [exact H | exact (run_keeps_wellFormed _ H)].
Defined.

(** X2.  While the component is paused, animation frames change nothing:
    in any state reached from the mounted component that is not playing,
    a frame leaves the whole state, [currentTime] included, as it is. *)
Theorem paused_frames_do_nothing (events : list Event) (time : Q) :
  admissibleRun events initialState ->
  isPlaying (run events initialState) = false ->
  dispatch (AnimationFrame time) (run events initialState)
  = run events initialState.
Proof.
  intros Hadm Hp. apply paused_frame_from; [|exact Hp].
  apply run_wellFormed_from; [apply initialState_wellFormed | exact Hadm].
Qed.

Lemma paused_frames_do_nothing_after_pause :
  dispatch (AnimationFrame 5000)
    (run [ClickPlayPause; AnimationFrame 0; AnimationFrame 1000; ClickPlayPause]
         initialState)
  = run [ClickPlayPause; AnimationFrame 0; AnimationFrame 1000; ClickPlayPause]
        initialState.
Proof.
  apply (paused_frames_do_nothing
           [ClickPlayPause; AnimationFrame 0; AnimationFrame 1000; ClickPlayPause]
           5000).
  - vm_compute. repeat split; discriminate.
  - reflexivity.
Defined.

(** X3.  Pausing and resuming does not make the time jump: after a pause
    and a resume the component plays at the time it had, with no
    previous timestamp, so that the first frame, whenever it comes, only
    records its timestamp and leaves [currentTime] where it was. *)
Theorem pause_resume_keeps_time (s : AppState) (time : Q) :
  isPlaying s = true ->
  let resumed := run [ClickPlayPause; ClickPlayPause] s in
  isPlaying resumed = true /\
  currentTime resumed = currentTime s /\
  lastTimeRef resumed = None /\
  currentTime (dispatch (AnimationFrame time) resumed) = currentTime s /\
  isPlaying (dispatch (AnimationFrame time) resumed) = true /\
  lastTimeRef (dispatch (AnimationFrame time) resumed) = Some time.
Proof.
  intros Hp resumed. subst resumed. cbn [run].
  rewrite (dispatch_pause s Hp), dispatch_play by reflexivity.
  rewrite first_frame by reflexivity.
  repeat split.
Qed.

Lemma pause_resume_keeps_time_nearEnd :
  isPlaying nearEnd = true /\
  currentTime
    (dispatch (AnimationFrame 9000) (run [ClickPlayPause; ClickPlayPause] nearEnd))
  = 47.
Proof.
  split; [reflexivity|].
  apply (pause_resume_keeps_time nearEnd 9000 eq_refl).
Defined.

(** X4.  Pressing play at the end of the episode pauses again by itself:
    from a well-formed paused state at [MAX_TIME], a click on play and
    two frames leave the component paused at [MAX_TIME], with no frame
    pending. *)
Theorem play_at_end_pauses_again (s : AppState) (t1 t2 : Q) :
  wellFormed s -> isPlaying s = false -> MAX_TIME <= currentTime s ->
  t1 <= t2 ->
  run [ClickPlayPause; AnimationFrame t1; AnimationFrame t2] s =
  {| currentTime := MAX_TIME; isPlaying := false;
     playbackSpeed := playbackSpeed s; lastTimeRef := None;
     requestRef := false |}.
Proof.
  intros (_ & Hs & _ & Hl) Hp Hend Ht. cbn [run].
  rewrite (dispatch_play s Hp (Hl Hp)).
  rewrite (first_frame _ t1) by reflexivity.
  cbn [currentTime isPlaying playbackSpeed lastTimeRef requestRef].
  rewrite (dispatch_frame_end _ t1 t2); try reflexivity.
  unfold nextTime. cbn [currentTime playbackSpeed].
  rewrite <- (Qplus_0_r MAX_TIME).
  apply Qplus_le_compat; [exact Hend|].
  apply step_nonneg; [apply cycleSpeed_nonneg, Hs | exact Ht].
Qed.

Lemma play_at_end_pauses_again_speed_1 :
  currentTime
    (run [ClickPlayPause; AnimationFrame 0; AnimationFrame 16]
         (setCurrentTime MAX_TIME initialState)) = MAX_TIME /\
  isPlaying
    (run [ClickPlayPause; AnimationFrame 0; AnimationFrame 16]
         (setCurrentTime MAX_TIME initialState)) = false.
Proof.
  assert (Hw : wellFormed (setCurrentTime MAX_TIME initialState)).
  { repeat split; try discriminate. left. reflexivity. }
  rewrite (play_at_end_pauses_again (setCurrentTime MAX_TIME initialState) 0 16 Hw);
    [split; reflexivity | reflexivity | apply Qle_refl | discriminate].
Defined.

(** X5.  A click on reset brings a well-formed state back to the mounted
    one, except for the speed, which it keeps: time 0, paused, no
    previous timestamp and no pending frame. *)
Theorem reset_restores_initial (s : AppState) :
  wellFormed s ->
  dispatch ClickReset s = setPlaybackSpeed (playbackSpeed s) initialState.
Proof. intros Hw. rewrite (dispatch_reset s Hw). reflexivity. Qed.

Lemma reset_restores_initial_nearEnd :
  wellFormed nearEnd /\
  dispatch ClickReset nearEnd = setPlaybackSpeed 4 initialState.
Proof.
  assert (Hw : wellFormed nearEnd).
  { repeat split; try discriminate. right; right. reflexivity. }
  split; [exact Hw | exact (reset_restores_initial nearEnd Hw)].
Defined.

(** X6.  Playing never moves the time backwards nor past the end: at a
    non-negative speed and from a time not after [MAX_TIME], after any
    run of frames whose timestamps do not go back, however the elapsed
    time is cut into frames, [currentTime] is at least what it was and
    at most [MAX_TIME], and the speed is unchanged. *)
Theorem frames_never_go_back (times : list Q) (s : AppState) (prev : Q) :
  lastTimeRef s = Some prev -> 0 <= playbackSpeed s ->
  nondecreasing prev times -> currentTime s <= MAX_TIME ->
  currentTime s <= currentTime (frames times s) <= MAX_TIME /\
  playbackSpeed (frames times s) = playbackSpeed s.
Proof.
  revert s prev.
  induction times as [|time rest IH]; intros s prev Hlast Hspeed Hmono Hcur.
  - cbn [frames]. repeat split; [apply Qle_refl | exact Hcur].
  - destruct Hmono as [Hle Hmono]. cbn [frames].
    destruct (animate_forward s prev time Hlast Hspeed Hle Hcur) as [Hlo Hhi].
    destruct (IH (animate time s) time) as [[H1 H2] H3].
    + apply animate_lastTimeRef.
    + rewrite animate_playbackSpeed. exact Hspeed.
    + exact Hmono.
    + exact Hhi.
    + repeat split.
      * eapply Qle_trans; [exact Hlo | exact H1].
      * exact H2.
      * rewrite H3. apply animate_playbackSpeed.
Qed.

Lemma frames_never_go_back_nearEnd :
  lastTimeRef nearEnd = Some 0 /\
  currentTime nearEnd <= currentTime (frames [16; 33; 50; 100] nearEnd)
                      <= MAX_TIME.
Proof.
  split; [reflexivity|].
  apply (frames_never_go_back [16; 33; 50; 100] nearEnd 0);
    [reflexivity | discriminate | cbn [nondecreasing]; repeat split; discriminate
     | discriminate].
Defined.

End TimelineExtras.

(** ** Remainders and the readout of the controls *)

Section Readout.
Local Open Scope Q_scope.

(** On a non-negative dividend and a positive divisor, [%] is the
    remainder of the floored division and lies in [[0, b)]. *)
Lemma rem_nonneg (a b : Q) :
  0 <= a -> 0 < b ->
  JS.rem a b == a - b * inject_Z (Qfloor (a / b)) /\
  0 <= JS.rem a b /\ JS.rem a b < b.
Proof.
  intros Ha Hb.
  assert (Hq : 0 <= a / b).
  { apply Qle_shift_div_l; [exact Hb|]. rewrite Qmult_0_l. exact Ha. }
  assert (Htr : JS.trunc (a / b) = Qfloor (a / b)).
  { unfold JS.trunc. apply Qle_bool_iff in Hq. rewrite Hq. reflexivity. }
  assert (Hab : a == b * (a / b)).
  { field. intros E. rewrite E in Hb. discriminate. }
  pose proof (Qfloor_le (a / b)) as Hlo.
  pose proof (Qlt_floor (a / b)) as Hhi.
  apply (Qmult_le_l _ _ b Hb) in Hlo.
  apply (Qmult_lt_l _ _ b Hb) in Hhi.
  rewrite <- Hab in Hlo, Hhi.
  rewrite inject_Z_plus in Hhi.
  unfold JS.rem. rewrite Htr.
  set (f := inject_Z (Qfloor (a / b))) in *.
  split; [reflexivity|]. split.
  - unfold Qminus. rewrite <- Qle_minus_iff. exact Hlo.
  - apply (Qplus_lt_l _ _ (b * f)).
    setoid_replace (a - b * f + b * f) with a by ring.
    setoid_replace (b + b * f) with (b * (f + inject_Z 1)) by ring.
    exact Hhi.
Qed.

Lemma floor_bounds (q : Q) (lo hi : Z) :
  inject_Z lo <= q -> q < inject_Z hi -> (lo <= Qfloor q < hi)%Z.
Proof.
  intros Hlo Hhi. split.
  - rewrite <- (Qfloor_Z lo). apply Qfloor_resp_le, Hlo.
  - rewrite Zlt_Qlt. eapply Qle_lt_trans; [apply Qfloor_le | exact Hhi].
Qed.

(** X7.  For a non-negative time the readout [T + {h}h {m}m] of the
    controls never shows 60 minutes and is less than a minute away from
    the time: [h] is non-negative, [m] lies between 0 and 59, and the
    time lies strictly between [h] hours [m - 1] minutes and [h] hours
    [m + 1] minutes. *)
Theorem readout_within_a_minute (t : Q) :
  0 <= t ->
  (0 <= Controls.hours t)%Z /\
  (0 <= Controls.minutes t < 60)%Z /\
  inject_Z (Controls.hours t) + (inject_Z (Controls.minutes t) - 1) / 60 < t /\
  t < inject_Z (Controls.hours t) + (inject_Z (Controls.minutes t) + 1) / 60.
Proof.
  intros Ht. unfold Controls.hours, Controls.minutes, JS.floor.
  destruct (rem_nonneg t 1 Ht) as (Hrem & Hr0 & Hr1); [reflexivity|].
  assert (Hfrac : JS.rem t 1 == t - inject_Z (Qfloor t)).
  { rewrite Hrem. rewrite (Qfloor_comp (t / 1) t) by field. ring. }
  set (r := JS.rem t 1) in *.
  pose proof (Qfloor_le (r * 60)) as Hm0.
  pose proof (Qlt_floor (r * 60)) as Hm1.
  rewrite inject_Z_plus in Hm1.
  assert (Hh : (0 <= Qfloor t)%Z)
    by (apply (floor_bounds t 0 (Qfloor t + 1)); [exact Ht | apply Qlt_floor]).
  assert (Hm : (0 <= Qfloor (r * 60) < 60)%Z).
  { apply floor_bounds.
    - change (inject_Z 0) with 0. Lqa.lra.
    - change (inject_Z 60) with 60. Lqa.lra. }
  set (m := inject_Z (Qfloor (r * 60))) in *.
  set (h := inject_Z (Qfloor t)) in *.
  change (inject_Z 1) with 1 in Hm1.
  repeat split; try apply Hm; try exact Hh.
  - unfold Qdiv. change (/ 60) with (1 # 60). Lqa.lra.
  - unfold Qdiv. change (/ 60) with (1 # 60). Lqa.lra.
Qed.

Lemma readout_within_a_minute_at_16_40 :
  0 <= 1667 # 100 /\
  Controls.hours (1667 # 100) = 16%Z /\ Controls.minutes (1667 # 100) = 40%Z /\
  1667 # 100
  < inject_Z (Controls.hours (1667 # 100))
    + (inject_Z (Controls.minutes (1667 # 100)) + 1) / 60.
Proof.
  assert (H : 0 <= 1667 # 100) by discriminate.
  split; [exact H|]. split; [reflexivity|]. split; [reflexivity|].
  apply (readout_within_a_minute (1667 # 100) H).
Defined.

End Readout.

(** ** The views at the current time *)

Section Views.
Local Open Scope Q_scope.

(** Within the episode some sample is at or after [now] and less than
    one step ahead. *)
Lemma sample_within_step (now : Q) :
  0 <= now <= MAX_TIME ->
  exists k, (k < sampleCount)%nat /\
            now <= sampleTime (Z.of_nat k) /\
            sampleTime (Z.of_nat k) < now + (1 # 2).
Proof.
  intros [H0 H48].
  pose proof (Qle_ceiling (now * 2)) as Hup.
  pose proof (Qceiling_lt (now * 2)) as Hlo.
  assert (Hrange : (0 <= Qceiling (now * 2) <= 96)%Z).
  { split.
    - rewrite <- (Qceiling_Z 0). apply Qceiling_resp_le.
      change (inject_Z 0) with 0. Lqa.lra.
    - rewrite <- (Qceiling_Z 96). apply Qceiling_resp_le.
      change (inject_Z 96) with 96. change MAX_TIME with 48 in H48. Lqa.lra. }
  exists (Z.to_nat (Qceiling (now * 2))).
  rewrite Z2Nat.id by apply Hrange.
  split; [unfold sampleCount; lia|].
  rewrite sampleTime_half.
  unfold Zminus in Hlo. rewrite inject_Z_plus in Hlo.
  change (inject_Z (- (1))) with (-1 # 1) in Hlo.
  set (c := Qceiling (now * 2)) in *.
  assert (Hc : c # 2 == inject_Z c * (1 # 2))
    by (unfold Qeq, inject_Z; simpl; lia).
  rewrite Hc. split; Lqa.lra.
Qed.

(** The sample shown for a time within the episode: it exists, it is
    less than one step ahead of the time, and the cursor of the chart
    stands on its label. *)
Lemma views_within_episode (now : Q) :
  0 <= now <= MAX_TIME ->
  exists d,
    currentData SIMULATION_DATA now = Some d /\
    Hydrograph.cursor SIMULATION_DATA now = Some (label d) /\
    now <= time d /\ time d < now + (1 # 2).
Proof.
  intros Hnow.
  destruct (sample_within_step now Hnow) as (k & Hk & Hge & Hlt).
  assert (Hin : In (dataPoint (Z.of_nat k)) SIMULATION_DATA)
    by (apply SIMULATION_DATA_In; exists k; auto).
  unfold currentData, Hydrograph.cursor, findAtOrAfter.
  destruct (find (fun d => Qle_bool now (time d)) SIMULATION_DATA) as [d|] eqn:Hfind.
  - exists d. repeat split.
    + apply find_some in Hfind as [_ H]. apply Qle_bool_iff, H.
    + destruct (find_first _ _ _ Hfind) as (l1 & l2 & Hsplit & Hd & Hbefore).
      pose proof SIMULATION_DATA_sorted as Hsorted.
      rewrite Hsplit in Hsorted, Hin.
      apply sorted_after in Hsorted. rewrite Forall_forall in Hsorted.
      apply in_app_or in Hin as [Hin | [Heq | Hin]].
      * apply Hbefore, atOrAfter_false in Hin. cbn [time dataPoint] in Hin.
        exfalso. exact (Qlt_not_le _ _ Hin Hge).
      * rewrite Heq. exact Hlt.
      * eapply Qlt_trans; [apply (Hsorted _ Hin) | exact Hlt].
  - exfalso. pose proof (find_none _ _ Hfind _ Hin) as H.
    apply atOrAfter_false in H. exact (Qlt_not_le _ _ H Hge).
Qed.

Lemma cursor_past_end (now : Q) :
  MAX_TIME < now -> Hydrograph.cursor SIMULATION_DATA now = None.
Proof.
  intros Hnow. unfold Hydrograph.cursor, findAtOrAfter.
  destruct (find (fun d => Qle_bool now (time d)) SIMULATION_DATA) as [d|] eqn:Hfind;
    [|reflexivity].
  exfalso. apply find_some in Hfind as [Hin Hd].
  apply Qle_bool_iff in Hd.
  apply SIMULATION_DATA_In in Hin as [k [Hk ->]]. cbn [time dataPoint] in Hd.
  apply (Qlt_irrefl now). eapply Qle_lt_trans; [exact Hd|].
  eapply Qle_lt_trans; [|exact Hnow].
  rewrite sampleTime_half. unfold Qle, MAX_TIME, sampleCount in *. simpl. lia.
Qed.

(** X8.  For a time within the episode, the sample the map and the scene
    show is at or after the time and less than one step (half an hour)
    ahead, and the cursor of the chart stands on the label of that same
    sample.  For a time after the end the chart has no cursor, while the
    map and the scene show the last sample. *)
Theorem views_agree_on_sample (now : Q) :
  (0 <= now <= MAX_TIME ->
   exists d,
     currentData SIMULATION_DATA now = Some d /\
     Hydrograph.cursor SIMULATION_DATA now = Some (label d) /\
     now <= time d /\ time d < now + (1 # 2)) /\
  (MAX_TIME < now ->
   Hydrograph.cursor SIMULATION_DATA now = None /\
   currentData SIMULATION_DATA now = Some (dataPoint 96)).
Proof.
  split.
  - apply views_within_episode.
  - intros H. split; [apply cursor_past_end | apply currentData_past_end]; exact H.
Qed.

(** X9.  In every state reached from the mounted component the views
    are defined: the filled part of the slider is between 0 and 100
    percent, and a sample less than half an hour ahead of [currentTime]
    is shown, with the cursor of the chart on its label. *)
Theorem views_defined_when_reached (events : list Event) :
  admissibleRun events initialState ->
  let now := currentTime (run events initialState) in
  0 <= Controls.percentage now MAX_TIME <= 100 /\
  exists d,
    currentData SIMULATION_DATA now = Some d /\
    Hydrograph.cursor SIMULATION_DATA now = Some (label d) /\
    now <= time d /\ time d < now + (1 # 2).
Proof.
  intros Hadm now.
  assert (Hnow : 0 <= now <= MAX_TIME)
    by (apply (run_wellFormed_from events initialState);
        [apply initialState_wellFormed | exact Hadm]).
  split; [|apply views_within_episode, Hnow].
  unfold Controls.percentage, Qdiv. change (/ MAX_TIME) with (1 # 48).
  change MAX_TIME with 48 in Hnow. split; Lqa.lra.
Qed.

Lemma views_defined_when_reached_session :
  admissibleRun
    [ClickPlayPause; AnimationFrame 0; AnimationFrame 1000; Slide (162 # 10)]
    initialState /\
  0 <= Controls.percentage
         (currentTime
            (run [ClickPlayPause; AnimationFrame 0; AnimationFrame 1000;
                  Slide (162 # 10)] initialState)) MAX_TIME <= 100.
Proof.
  assert (H : admissibleRun
                [ClickPlayPause; AnimationFrame 0; AnimationFrame 1000;
                 Slide (162 # 10)] initialState).
  { vm_compute. repeat split; discriminate. }
  split; [exact H|].
  apply (views_defined_when_reached _ H).
Defined.

End Views.

(** ** The scene along the timeline *)

Section SceneTimeline.
Local Open Scope Q_scope.

Ltac bools_to_props :=
  repeat match goal with
         | H : _ && _ = true |- _ => apply andb_true_iff in H; destruct H
         | H : Qlt_bool _ _ = true |- _ => apply Qlt_bool_iff in H
         | H : Qlt_bool _ _ = false |- _ => apply Qlt_bool_false in H
         | H : Qle_bool _ _ = true |- _ => apply Qle_bool_iff in H
         | H : Qle_bool _ _ = false |- _ =>
             apply not_true_iff_false in H; rewrite Qle_bool_iff in H;
             apply Qnot_le_lt in H
         end.

Ltac linear := unfold Qdiv in *; change (/ 3) with (1 # 3) in *;
               change (/ 11) with (1 # 11) in *; Lqa.lra.

(** The progress of the infiltration as [KarstLabels] computes it. *)
Lemma karst_progress (t : Q) :
  let p := Qmin (if Qle_bool 10 t then (t - 10) / 3 else 0) 1 in
  (t <= 10 /\ p == 0) \/
  (10 < t /\ t < 13 /\ p == (t - 10) / 3) \/
  (13 <= t /\ p == 1).
Proof.
  intros p. subst p.
  destruct (Qle_bool 10 t) eqn:Hstart; bools_to_props.
  - destruct (Q.min_spec ((t - 10) / 3) 1) as [[Hlt Heq] | [Hge Heq]].
    + destruct (Qlt_le_dec 10 t) as [H | H].
      * right; left. repeat split; [exact H | linear | exact Heq].
      * left. split; [exact H|]. rewrite Heq. linear.
    + right; right. split; [linear | exact Heq].
  - left. split; [apply Qlt_le_weak, Hstart | reflexivity].
Qed.

(** When [KarstLabels] renders, and which of its labels. *)
Lemma karstLabels_cases (t : Q) :
  (FloodSimulation.karstLabels t = None <-> t <= 10) /\
  (forall l,
      FloodSimulation.karstLabels t = Some l ->
      (FloodSimulation.infiltration l = true <-> 103 # 10 < t /\ t < 15) /\
      (FloodSimulation.decharge l = true <-> 1285 # 100 <= t /\ t < 26)).
Proof.
  unfold FloodSimulation.karstLabels. cbv zeta.
  pose proof (karst_progress t) as Hp. cbv zeta in Hp.
  set (p := Qmin (if Qle_bool 10 t then (t - 10) / 3 else 0) 1) in *.
  destruct (Qle_bool p 0) eqn:Hnull; bools_to_props.
  - split.
    + split; [intros _ | reflexivity].
      destruct Hp as [[H _] | [(H1 & H2 & H3) | [H1 H2]]]; [exact H | |].
      * exfalso. rewrite H3 in Hnull. linear.
      * exfalso. rewrite H2 in Hnull. linear.
    + intros l [=].
  - split.
    + split; [discriminate | intros H; exfalso].
      destruct Hp as [[_ H0] | [(H1 & _) | [H1 _]]].
      * rewrite H0 in Hnull. linear.
      * exact (Qlt_not_le _ _ H1 H).
      * linear.
    + intros l [= <-]. cbn [FloodSimulation.infiltration FloodSimulation.decharge].
      rewrite !andb_true_iff, !Qlt_bool_iff, Qle_bool_iff.
      destruct Hp as [[H H0] | [(H1 & H2 & H3) | [H1 H2]]].
      * exfalso. rewrite H0 in Hnull. linear.
      * rewrite H3. split; split; intros [Ha Hb]; split; linear.
      * rewrite H2. split; split; intros [Ha Hb]; split; linear.
Qed.

(** X10.  [KarstLabels] renders nothing up to 10 h and a group after.
    In the group the label [INFILTRATION KARSTIQUE] is present exactly
    for times strictly between 10.3 h and 15 h, and the label [DECHARGE
    KARSTIQUE] exactly for times from 12.85 h, included, to 26 h,
    excluded. *)
Theorem karstLabels_windows (t : Q) :
  (FloodSimulation.karstLabels t = None <-> t <= 10) /\
  (forall l,
      FloodSimulation.karstLabels t = Some l ->
      (FloodSimulation.infiltration l = true <-> 103 # 10 < t /\ t < 15) /\
      (FloodSimulation.decharge l = true <-> 1285 # 100 <= t /\ t < 26)).
Proof. exact (karstLabels_cases t). Qed.

(** X11.  The captions of the scene agree with the phase bar and the
    analysis box.  While [RUISSELLEMENT DE SURFACE] is shown the runoff
    arrows are active, the bar says phase 1 and the box shows the
    phase-1 text; while the arrows are active the bar says phase 1;
    while [DECHARGE KARSTIQUE] is shown the bar says phase 2; and the
    bar says phase 2 exactly when the box shows the phase-2 text or the
    recession text. *)
Theorem captions_agree_with_phase (t : Q) :
  (FloodSimulation.runoffCaption t = true ->
   FloodSimulation.arrowsActive t = true /\
   phaseBar t = Phase1Ruissellement /\ analysis t = Phase1Text) /\
  (FloodSimulation.arrowsActive t = true -> phaseBar t = Phase1Ruissellement) /\
  (forall l,
      FloodSimulation.karstLabels t = Some l ->
      FloodSimulation.decharge l = true -> phaseBar t = Phase2Karst) /\
  (phaseBar t = Phase2Karst <-> analysis t = Phase2Text \/ analysis t = Decrue).
Proof.
  unfold FloodSimulation.runoffCaption, FloodSimulation.arrowsActive,
    phaseBar, analysis.
  repeat split.
  - bools_to_props. apply andb_true_iff. split; apply Qlt_bool_iff; Lqa.lra.
  - bools_to_props.
    match goal with H : t < 11 |- _ => apply Qlt_bool_iff in H; rewrite H end.
    reflexivity.
  - bools_to_props.
    assert (H2 : Qlt_bool t 2 = false) by (apply Qlt_bool_false; Lqa.lra).
    match goal with H : t < 11 |- _ => apply Qlt_bool_iff in H; rewrite H end.
    rewrite H2. reflexivity.
  - intros Hactive. bools_to_props.
    match goal with H : t < 11 |- _ => apply Qlt_bool_iff in H; rewrite H end.
    reflexivity.
  - intros l Hl Hd.
    destruct (karstLabels_cases t) as [_ Hw].
    destruct (Hw l Hl) as [_ Hw'].
    apply Hw' in Hd as [Hd _].
    assert (H11 : Qlt_bool t 11 = false) by (apply Qlt_bool_false; Lqa.lra).
    rewrite H11. reflexivity.
  - destruct (Qlt_bool t 11) eqn:H11; [discriminate|]. intros _.
    assert (H2 : Qlt_bool t 2 = false)
      by (bools_to_props; apply Qlt_bool_false; Lqa.lra).
    rewrite H2. destruct (Qlt_bool t 24); [left | right]; reflexivity.
  - destruct (Qlt_bool t 2) eqn:H2; [intros [H | H]; discriminate|].
    destruct (Qlt_bool t 11) eqn:H11; [intros [H | H]; discriminate|].
    reflexivity.
Qed.

End SceneTimeline.

Section SceneMotion.
Local Open Scope Q_scope.

Ltac to_props :=
  repeat match goal with
         | H : Qlt_bool _ _ = true |- _ => apply Qlt_bool_iff in H
         | H : Qlt_bool _ _ = false |- _ => apply Qlt_bool_false in H
         | H : Qle_bool _ _ = true |- _ => apply Qle_bool_iff in H
         | H : Qle_bool _ _ = false |- _ =>
             apply not_true_iff_false in H; rewrite Qle_bool_iff in H;
             apply Qnot_le_lt in H
         end.

Ltac linear11 := unfold Qdiv in *; change (/ 11) with (1 # 11) in *; Lqa.lra.

Lemma lerp_front (u : Q) : THREE.lerp 60 (-60) u == 60 - 120 * u.
Proof. unfold THREE.lerp. ring. Qed.

(** X12.  The rain front and the cloud front of the runoff arrows are
    the same abscissa, [60 - 120 t / 11], up to 11 h.  Between 11 h and
    12 h the rain front goes on beyond [-60] while the cloud front stays
    at [-60]; after 12 h there is no rain front. *)
Theorem rainFront_and_cloudX (t : Q) :
  (t <= 11 ->
   exists x, FloodSimulation.rainFront t = Some x /\
             x == FloodSimulation.cloudX t /\ x == 60 - 120 * t / 11) /\
  (11 < t -> t <= 12 ->
   exists x, FloodSimulation.rainFront t = Some x /\
             x < -60 /\ FloodSimulation.cloudX t == -60) /\
  (12 < t ->
   FloodSimulation.rainFront t = None /\ FloodSimulation.cloudX t == -60).
Proof.
  unfold FloodSimulation.rainFront, FloodSimulation.cloudX. cbv zeta.
  split; [|split].
  - intros H.
    assert (H12 : Qlt_bool 12 t = false) by (apply Qlt_bool_false; Lqa.lra).
    assert (Hmin : Qmin (t / 11) 1 == t / 11) by (apply Q.min_l; linear11).
    rewrite H12. eexists. split; [reflexivity|].
    rewrite !lerp_front, Hmin. split; [reflexivity | linear11].
  - intros H11 H.
    assert (H12 : Qlt_bool 12 t = false) by (apply Qlt_bool_false; exact H).
    assert (Hmin : Qmin (t / 11) 1 == 1) by (apply Q.min_r; linear11).
    rewrite H12. eexists. split; [reflexivity|].
    rewrite !lerp_front, Hmin. split; [linear11 | reflexivity].
  - intros H.
    assert (H12 : Qlt_bool 12 t = true) by (apply Qlt_bool_iff; exact H).
    assert (Hmin : Qmin (t / 11) 1 == 1) by (apply Q.min_r; linear11).
    rewrite H12. split; [reflexivity|].
    rewrite lerp_front, Hmin. reflexivity.
Qed.

(** X13.  At a non-negative clock value an arrow stays away from the
    river: on the side [1] its depth is [40 - progress] and lies in
    [(10, 40]], on the side [-1] it is [-40 + progress] and lies in
    [[-40, -10)], the progress being a remainder modulo 30; the two
    resets near the river ([zPos < 6], [zPos > -6]) are never taken. *)
Theorem arrows_keep_off_the_river (speed offset time : Q) :
  0 <= time * speed + offset ->
  FloodSimulation.arrowZ true speed offset time
    = 40 - JS.rem (time * speed + offset) 30 /\
  10 < FloodSimulation.arrowZ true speed offset time <= 40 /\
  FloodSimulation.arrowZ false speed offset time
    = -40 + JS.rem (time * speed + offset) 30 /\
  -40 <= FloodSimulation.arrowZ false speed offset time < -10.
Proof.
  intros H. unfold FloodSimulation.arrowZ. cbv zeta.
  destruct (rem_nonneg (time * speed + offset) 30 H) as (_ & H0 & H30);
    [reflexivity|].
  set (progress := JS.rem (time * speed + offset) 30) in *.
  assert (Ha : Qlt_bool (40 - progress) 6 = false)
    by (apply Qlt_bool_false; Lqa.lra).
  assert (Hb : Qlt_bool (-6) (-40 + progress) = false)
    by (apply Qlt_bool_false; Lqa.lra).
  rewrite Ha, Hb. repeat split; Lqa.lra.
Qed.

Lemma arrows_keep_off_the_river_at_7s :
  0 <= 7 * 6 + 11 /\
  FloodSimulation.arrowZ true 6 11 7 == 17 /\
  10 < FloodSimulation.arrowZ true 6 11 7 <= 40.
Proof.
  assert (H : 0 <= 7 * 6 + 11) by discriminate.
  split; [exact H|]. split; [reflexivity|].
  apply (arrows_keep_off_the_river 6 11 7 H).
Defined.



(** X15.  A rain drop never leaves the column: with a non-negative
    falling speed, a height between [-5] and [20] stays between [-5]
    and [20] after any number of frames. *)
Theorem drop_stays_in_column (n : nat) (speed y : Q) :
  0 <= speed -> -5 <= y <= 20 ->
  -5 <= FloodSimulation.dropFrames n speed y <= 20.
Proof.
  intros Hs. revert y. induction n as [|n IH]; intros y Hy; [exact Hy|].
  cbn [FloodSimulation.dropFrames]. apply IH.
  unfold FloodSimulation.dropFrame. cbv zeta.
  destruct (Qlt_bool (y - speed) (-5)) eqn:H; to_props; split;
    try discriminate; Lqa.lra.
Qed.

Lemma drop_stays_in_column_wraps :
  0 <= 3 # 4 /\ -5 <= -9 # 2 <= 20 /\
  FloodSimulation.dropFrames 1 (3 # 4) (-9 # 2) = 20 /\
  -5 <= FloodSimulation.dropFrames 40 (3 # 4) (-9 # 2) <= 20.
Proof.
  assert (Hs : 0 <= 3 # 4) by discriminate.
  assert (Hy : -5 <= -9 # 2 <= 20) by (split; discriminate).
  split; [exact Hs|]. split; [exact Hy|]. split; [reflexivity|].
  apply (drop_stays_in_column 40 (3 # 4) (-9 # 2) Hs Hy).
Defined.

End SceneMotion.

(** ** Levels and what is drawn from them *)

Section Levels.
Local Open Scope R_scope.

Lemma gaussian_le (a p w t : R) :
  0 < a -> 0 < w -> a * exp (- (t - p) ^ 2 / w) <= a.
Proof.
  intros Ha Hw. destruct (gaussian_peak a p w Ha Hw) as [Hp Hmax].
  destruct (Req_dec t p) as [-> | Hne].
  - cbv beta in Hp. rewrite Hp. apply Rle_refl.
  - apply Rlt_le. exact (Hmax t Hne).
Qed.

Lemma levels_below_sum (t : R) :
  hStZacharie t <= 1.6 /\ hRoquevaire t <= 2.2 /\
  hAubagne t <= 1.7 /\ hMarseille t <= 1.1.
Proof.
  unfold hStZacharie, hRoquevaire, hAubagne, hMarseille, base,
    runoffStZacharie, karstStZacharie, runoffRoquevaire, karstRoquevaire,
    runoffAubagne, karstAubagne, runoffMarseille, karstMarseille.
  pose proof (gaussian_le 0.1 9 8 t) as H1.
  pose proof (gaussian_le 1.2 16 15 t) as H2.
  pose proof (gaussian_le 0.6 8 8 t) as H3.
  pose proof (gaussian_le 1.3 17.5 18 t) as H4.
  pose proof (gaussian_le 0.5 7 8 t) as H5.
  pose proof (gaussian_le 0.9 19 20 t) as H6.
  pose proof (gaussian_le 0.4 6 8 t) as H7.
  pose proof (gaussian_le 0.4 21 25 t) as H8.
  repeat split; lra.
Qed.

(** Every reading of the series lies between the base flow and 2.2. *)
Lemma reading_range (d : HydroDataPoint) (level : R) :
  In d SIMULATION_DATA -> In level (readings d) -> 0.3 <= level <= 2.2.
Proof.
  intros Hd Hl. apply SIMULATION_DATA_In in Hd as [k [_ ->]].
  unfold readings in Hl. cbn [stZacharie roquevaire aubagne marseille dataPoint] in Hl.
  pose proof (levels_above_base (Q2R (sampleTime (Z.of_nat k)))) as Hlo.
  pose proof (levels_below_sum (Q2R (sampleTime (Z.of_nat k)))) as Hhi.
  unfold base in Hlo.
  destruct Hl as [<- | [<- | [<- | [<- | []]]]]; lra.
Qed.

(** X16.  The curves of the chart stay inside its vertical axis: in
    every sample of the series the reading of St Zacharie is at most
    1.6, that of Roquevaire at most 2.2, that of Aubagne at most 1.7 and
    that of Marseille at most 1.1, all strictly inside the domain
    [[0, 2.5]] of the axis. *)
Theorem readings_fit_chart :
  Forall (fun d =>
            (stZacharie d <= 1.6 /\ roquevaire d <= 2.2 /\
             aubagne d <= 1.7 /\ marseille d <= 1.1) /\
            forall level, In level (readings d) ->
                          Hydrograph.domainMin < level < Hydrograph.domainMax)
         SIMULATION_DATA.
Proof.
  apply Forall_forall. intros d Hd. split.
  - apply SIMULATION_DATA_In in Hd as [k [_ ->]].
    cbn [stZacharie roquevaire aubagne marseille dataPoint].
    apply levels_below_sum.
  - intros level Hl. pose proof (reading_range d level Hd Hl) as H.
    unfold Hydrograph.domainMin, Hydrograph.domainMax. lra.
Qed.

(** X17.  On the map the gauge of a station is never full and its cap
    at 100 percent is never used: for every reading of every sample of
    the series the fill is [level / 3 * 100] percent, at least 10 and
    less than 74. *)
Theorem gauge_never_full (d : HydroDataPoint) (level : R) :
  In d SIMULATION_DATA -> In level (readings d) ->
  StationMap.percentage level = level / 3 * 100 /\
  10 <= StationMap.percentage level < 74.
Proof.
  intros Hd Hl. pose proof (reading_range d level Hd Hl) as H.
  unfold StationMap.percentage, StationMap.maxLevel.
  rewrite Rmin_left by lra. split; [lra | split; lra].
Qed.

Lemma gauge_never_full_stZacharie_16 :
  In (dataPoint 32) SIMULATION_DATA /\
  StationMap.percentage (stZacharie (dataPoint 32))
  = stZacharie (dataPoint 32) / 3 * 100.
Proof.
  assert (Hd : In (dataPoint 32) SIMULATION_DATA).
  { apply SIMULATION_DATA_In. exists 32%nat.
    split; [unfold sampleCount; lia | reflexivity]. }
  split; [exact Hd|].
  apply (gauge_never_full (dataPoint 32) (stZacharie (dataPoint 32)) Hd).
  left. reflexivity.
Defined.

(** X18.  In the scene the liquid of a gauge stays inside its glass
    tube and the minimum height 0.2 is never used: for every reading of
    every sample of the series the column is [8 * level] high, it starts
    at the bottom of the tube, it is centred half-way up, and its top,
    where the float sits, is below the top of the tube. *)
Theorem liquid_stays_in_tube (d : HydroDataPoint) (level : R) :
  In d SIMULATION_DATA -> In level (readings d) ->
  FloodSimulation.visualHeight level = level * 8 /\
  FloodSimulation.bottomY = FloodSimulation.tubeBottom /\
  FloodSimulation.centerY level
  = (FloodSimulation.bottomY + FloodSimulation.topSurfaceY level) / 2 /\
  FloodSimulation.bottomY < FloodSimulation.topSurfaceY level
                          < FloodSimulation.tubeTop.
Proof.
  intros Hd Hl. pose proof (reading_range d level Hd Hl) as H.
  unfold FloodSimulation.centerY, FloodSimulation.topSurfaceY,
    FloodSimulation.visualHeight, FloodSimulation.visualScale,
    FloodSimulation.bottomY, FloodSimulation.tubeBottom, FloodSimulation.tubeTop.
  rewrite Rmax_right by lra. repeat split; lra.
Qed.

Lemma liquid_stays_in_tube_marseille_6 :
  In (dataPoint 12) SIMULATION_DATA /\
  FloodSimulation.topSurfaceY (marseille (dataPoint 12)) < FloodSimulation.tubeTop.
Proof.
  assert (Hd : In (dataPoint 12) SIMULATION_DATA).
  { apply SIMULATION_DATA_In. exists 12%nat.
    split; [unfold sampleCount; lia | reflexivity]. }
  split; [exact Hd|].
  apply (liquid_stays_in_tube (dataPoint 12) (marseille (dataPoint 12)) Hd).
  right; right; right; left. reflexivity.
Defined.



End Levels.

(** ** Labels as keys of the chart *)

Section LabelKeys.

Lemma labelsDistinct_all :
  labelsDistinct (map Z.of_nat (seq 0 sampleCount)) = true.
Proof. vm_compute. reflexivity. Qed.

(** X20.  The labels are keys of the series: two samples of the series
    with the same label are the same sample, so that the category axis
    of the chart, which is indexed by label, has one place for each
    sample and the cursor label names one sample only. *)
Theorem labels_are_keys (d e : HydroDataPoint) :
  In d SIMULATION_DATA -> In e SIMULATION_DATA ->
  label d = label e -> d = e.
Proof.
  intros Hd He Heq.
  apply SIMULATION_DATA_In in Hd as [i [Hi ->]].
  apply SIMULATION_DATA_In in He as [j [Hj ->]].
  cbn [label dataPoint] in Heq.
  pose proof labelsDistinct_all as H. unfold labelsDistinct in H.
  rewrite forallb_forall in H.
  specialize (H (Z.of_nat i)). cbv beta in H.
  rewrite forallb_forall in H by idtac.
  assert (Hini : In (Z.of_nat i) (map Z.of_nat (seq 0 sampleCount)))
    by (apply in_map, in_seq; lia).
  assert (Hinj : In (Z.of_nat j) (map Z.of_nat (seq 0 sampleCount)))
    by (apply in_map, in_seq; lia).
  specialize (H Hini (Z.of_nat j) Hinj). cbv beta in H.
  apply String.eqb_eq in Heq. rewrite Heq in H. cbn [implb] in H.
  apply Z.eqb_eq in H. rewrite H. reflexivity.
Qed.

Lemma labels_are_keys_at_16 :
  In (dataPoint 32) SIMULATION_DATA /\
  label (dataPoint 32) = label (dataPoint 32) /\
  dataPoint 32 = dataPoint 32.
Proof.
  assert (Hd : In (dataPoint 32) SIMULATION_DATA).
  { apply SIMULATION_DATA_In. exists 32%nat.
    split; [unfold sampleCount; lia | reflexivity]. }
  split; [exact Hd|]. split; [reflexivity|].
  exact (labels_are_keys (dataPoint 32) (dataPoint 32) Hd Hd eq_refl).
Defined.

End LabelKeys.
